(** * Verification of the versioning subsystem of open-swag-go

    Shallow embedding of [pkg/versioning/diff.go], [changelog.go] and
    [breaking.go] (the migration-guide generator).

    Documents are the decoded JSON values [Compare] receives
    ([map[string]interface{}] as produced by [json.Unmarshal]).  A Go map is
    represented by an association list; a lookup returns the first binding
    of a key, and a [range] loop visits [entries m], the list with shadowed
    bindings dropped, in list order.  Go leaves the iteration order of a map
    unspecified: every order is some list order, so the theorems, which
    quantify over all lists, cover every iteration order. *)

From Stdlib Require Import String Ascii List Bool Arith Lia.
From Stdlib Require Import DecimalString Permutation.
Set Warnings "-register-all".
Import ListNotations.
Open Scope list_scope.
Open Scope string_scope.

(** ** Decoded JSON values *)

Inductive value : Type :=
| VNull
| VBool (b : bool)
| VNum (n : nat)
| VStr (s : string)
| VArr (xs : list value)
| VObj (kvs : list (string * value)).

(** A [map[string]interface{}]. *)
Definition obj := list (string * value).

Section Maps.
Context {A : Type}.

(** [m[k]] with the comma-ok form: [None] when the key is absent. *)
Fixpoint lookup (k : string) (m : list (string * A)) : option A :=
  match m with
  | [] => None
  | (k', v) :: t => if String.eqb k k' then Some v else lookup k t
  end.

(** The bindings a [range] loop visits: the first binding of each key. *)
Fixpoint entries (m : list (string * A)) : list (string * A) :=
  match m with
  | [] => []
  | (k, v) :: t =>
      (k, v) :: filter (fun p => negb (String.eqb (fst p) k)) (entries t)
  end.

(** [m[k] = v] on a map. *)
Fixpoint assoc_insert (k : string) (v : A) (m : list (string * A))
  : list (string * A) :=
  match m with
  | [] => [(k, v)]
  | (k', v') :: t =>
      if String.eqb k k' then (k, v) :: t else (k', v') :: assoc_insert k v t
  end.
End Maps.

(** Type assertions [x.(T)] in the comma-ok form. *)
Definition as_obj (v : option value) : option obj :=
  match v with Some (VObj o) => Some o | _ => None end.
Definition as_str (v : option value) : option string :=
  match v with Some (VStr s) => Some s | _ => None end.
Definition as_bool (v : option value) : option bool :=
  match v with Some (VBool b) => Some b | _ => None end.
Definition as_arr (v : option value) : option (list value) :=
  match v with Some (VArr xs) => Some xs | _ => None end.

(** ** Data model of diff.go *)

Inductive ChangeType := ChangeAdded | ChangeRemoved | ChangeModified.

Record Change := mkChange {
  Type_ : ChangeType;
  Path : string;
  Method : string;
  Description : string;
  IsBreaking : bool
}.

Record BreakingChange := mkBreakingChange {
  BPath : string;
  BMethod : string;
  Reason : string;
  Migration : string
}.

Record Summary := mkSummary {
  AddedEndpoints : nat;
  RemovedEndpoints : nat;
  ModifiedEndpoints : nat;
  BreakingChanges : nat
}.

Record Diff := mkDiff {
  OldVersion : string;
  NewVersion : string;
  Changes : list Change;
  Breaking : list BreakingChange;
  Summary_ : Summary
}.

(** ** Accessors (helper functions of diff.go) *)

Definition getVersion (spec : obj) : string :=
  match as_obj (lookup "info" spec) with
  | Some info =>
      match as_str (lookup "version" info) with
      | Some version => version
      | None => "unknown"
      end
  | None => "unknown"
  end.

Definition paths_map := list (string * list (string * obj)).

(** [result[path][method] = opMap] for the operations that are objects. *)
Definition opMaps (methodMap : obj) : list (string * obj) :=
  flat_map (fun '(method, op) =>
              match op with VObj opMap => [(method, opMap)] | _ => [] end)
           (entries methodMap).

Definition getPaths (spec : obj) : paths_map :=
  match as_obj (lookup "paths" spec) with
  | Some paths =>
      map (fun '(path, methods) =>
             (path, match methods with VObj methodMap => opMaps methodMap
                                       | _ => [] end))
          (entries paths)
  | None => []
  end.

Definition getRequestBody (op : obj) : option obj :=
  as_obj (lookup "requestBody" op).

(** The required names of one media type: [mt["schema"]["required"]]. *)
Definition mediaTypeRequired (mediaType : value) : list string :=
  match mediaType with
  | VObj mt =>
      match as_obj (lookup "schema" mt) with
      | Some schema =>
          match as_arr (lookup "required" schema) with
          | Some req =>
              flat_map (fun r => match r with VStr s => [s] | _ => [] end) req
          | None => []
          end
      | None => []
      end
  | _ => []
  end.

Definition getRequiredFields (op : obj) : list string :=
  match getRequestBody op with
  | None => []
  | Some body =>
      match as_obj (lookup "content" body) with
      | None => []
      | Some content =>
          flat_map (fun '(_, mediaType) => mediaTypeRequired mediaType)
                   (entries content)
      end
  end.

Definition getResponseCodes (op : obj) : list string :=
  match as_obj (lookup "responses" op) with
  | Some responses => map fst (entries responses)
  | None => []
  end.

Definition getParameters (op : obj) : list (string * obj) :=
  match as_arr (lookup "parameters" op) with
  | Some params =>
      fold_left (fun result p =>
                   match p with
                   | VObj param =>
                       match as_str (lookup "name" param) with
                       | Some name => assoc_insert name param result
                       | None => result
                       end
                   | _ => result
                   end) params []
  | None => []
  end.

Definition isParamRequired (param : obj) : bool :=
  match as_bool (lookup "required" param) with
  | Some required => required
  | None => false
  end.

Definition contains (slice : list string) (item : string) : bool :=
  existsb (fun s => String.eqb s item) slice.

(** ** Per-operation comparison ([Differ.compareOperations])

    The function appends to [changes] in five consecutive blocks; each
    block is one definition below, and the result is their concatenation. *)

Section CompareOperations.
Variables (path method : string) (oldOp newOp : obj).

Definition modified (description : string) : Change :=
  mkChange ChangeModified path method description true.

(** Compare request body. *)
Definition bodyChanges : list Change :=
  match getRequestBody oldOp, getRequestBody newOp with
  | Some _, None => [modified "Request body removed"]
  | None, Some newBody =>
      match as_bool (lookup "required" newBody) with
      | Some true => [modified "Required request body added"]
      | _ => []
      end
  | _, _ => []
  end.

(** Compare required fields in request body. *)
Definition requiredFieldChanges : list Change :=
  let oldRequired := getRequiredFields oldOp in
  flat_map (fun field =>
              if contains oldRequired field then []
              else [modified ("New required field: " ++ field)])
           (getRequiredFields newOp).

(** Compare response codes. *)
Definition responseChanges : list Change :=
  let newResponses := getResponseCodes newOp in
  flat_map (fun code =>
              if contains newResponses code then []
              else [modified ("Response code " ++ code ++ " removed")])
           (getResponseCodes oldOp).

(** Check for removed parameters. *)
Definition removedParamChanges : list Change :=
  let newParams := getParameters newOp in
  flat_map (fun '(name, _) =>
              match lookup name newParams with
              | Some _ => []
              | None => [modified ("Parameter '" ++ name ++ "' removed")]
              end)
           (getParameters oldOp).

(** Check for new required parameters. *)
Definition newParamChanges : list Change :=
  let oldParams := getParameters oldOp in
  flat_map (fun '(name, param) =>
              match lookup name oldParams with
              | Some _ => []
              | None =>
                  if isParamRequired param
                  then [modified ("New required parameter: " ++ name)]
                  else []
              end)
           (getParameters newOp).

Definition compareOperations : list Change :=
  (bodyChanges ++ requiredFieldChanges ++ responseChanges
    ++ removedParamChanges ++ newParamChanges)%list.
End CompareOperations.

(** ** Migration hints ([getMigrationGuide])

    [s[:n]] panics when [n > len(s)]; a panic is [None]. *)

Definition slice (n : nat) (s : string) : option string :=
  if Nat.leb n (String.length s) then Some (substring 0 n s) else None.

Definition getMigrationGuide (change : Change) : option string :=
  let d := Description change in
  if String.eqb d "Request body removed" then
    Some "Remove request body from client calls"
  else if String.eqb d "Required request body added" then
    Some "Add required request body to client calls"
  else
    match slice 18 d with None => None | Some s18 =>
    if contains ["New required field"] s18 then
      Some "Add the new required field to request payload"
    else
    match slice 13 d with None => None | Some s13 =>
    if contains ["Response code"] s13 then
      Some "Update client to handle the removed response code"
    else
    match slice 9 d with None => None | Some s9 =>
    if contains ["Parameter"] s9 then
      Some "Update client to remove usage of the deleted parameter"
    else
    match slice 21 d with None => None | Some s21 =>
    if contains ["New required parameter"] s21 then
      Some "Add the new required parameter to client calls"
    else
      Some "Review the change and update client code accordingly"
    end end end end.

(** ** [Differ.Compare]

    The [diff] being built is threaded through the three loops of the
    function.  The migration hint of a breaking modification may panic,
    so the third loop runs in the option monad ([None] is a panic). *)

Definition add_change (d : Diff) (c : Change) : Diff :=
  mkDiff (OldVersion d) (NewVersion d) (Changes d ++ [c])%list (Breaking d) (Summary_ d).

Definition add_breaking (d : Diff) (b : BreakingChange) : Diff :=
  mkDiff (OldVersion d) (NewVersion d) (Changes d) (Breaking d ++ [b])%list (Summary_ d).

Definition set_summary (d : Diff) (s : Summary) : Diff :=
  mkDiff (OldVersion d) (NewVersion d) (Changes d) (Breaking d) s.

Definition incr_added (d : Diff) : Diff :=
  let s := Summary_ d in
  set_summary d (mkSummary (S (AddedEndpoints s)) (RemovedEndpoints s)
                           (ModifiedEndpoints s) (BreakingChanges s)).
Definition incr_removed (d : Diff) : Diff :=
  let s := Summary_ d in
  set_summary d (mkSummary (AddedEndpoints s) (S (RemovedEndpoints s))
                           (ModifiedEndpoints s) (BreakingChanges s)).
Definition incr_modified (d : Diff) : Diff :=
  let s := Summary_ d in
  set_summary d (mkSummary (AddedEndpoints s) (RemovedEndpoints s)
                           (S (ModifiedEndpoints s)) (BreakingChanges s)).
Definition incr_breaking (d : Diff) : Diff :=
  let s := Summary_ d in
  set_summary d (mkSummary (AddedEndpoints s) (RemovedEndpoints s)
                           (ModifiedEndpoints s) (S (BreakingChanges s))).

(** [oldMethods[method] == nil] where [oldMethods, pathExists := oldPaths[path]]. *)
Definition method_absent (paths : paths_map) (path method : string) : bool :=
  match lookup path paths with
  | None => true
  | Some methods => match lookup method methods with None => true | Some _ => false end
  end.

Fixpoint foldM {A B : Type} (f : B -> A -> option B) (l : list A) (b : B)
  : option B :=
  match l with
  | [] => Some b
  | x :: t => match f b x with Some b' => foldM f t b' | None => None end
  end.

Section Compare.
Variables (oldPaths newPaths : paths_map).

(** Find added endpoints. *)
Definition added_step (d : Diff) (pm : string * list (string * obj)) : Diff :=
  let '(path, methods) := pm in
  fold_left (fun d '(method, _) =>
               if method_absent oldPaths path method then
                 incr_added (add_change d
                   (mkChange ChangeAdded path method
                      ("New endpoint: " ++ method ++ " " ++ path) false))
               else d) methods d.

(** Find removed endpoints (breaking!). *)
Definition removed_step (d : Diff) (pm : string * list (string * obj)) : Diff :=
  let '(path, methods) := pm in
  fold_left (fun d '(method, _) =>
               if method_absent newPaths path method then
                 incr_breaking (incr_removed (add_breaking (add_change d
                   (mkChange ChangeRemoved path method
                      ("Removed endpoint: " ++ method ++ " " ++ path) true))
                   (mkBreakingChange path method "Endpoint removed"
                      "Update client code to use alternative endpoint or remove usage")))
               else d) methods d.

(** [for _, change := range changes { if change.IsBreaking { ... } }] *)
Definition breaking_step (path method : string) (d : Diff) (change : Change)
  : option Diff :=
  if IsBreaking change then
    match getMigrationGuide change with
    | Some migration =>
        Some (add_breaking (incr_breaking d)
                (mkBreakingChange path method (Description change) migration))
    | None => None
    end
  else Some d.

Definition operation_step (path : string) (newMethods : list (string * obj))
  (d : Diff) (mo : string * obj) : option Diff :=
  let '(method, oldOp) := mo in
  match lookup method newMethods with
  | Some newOp =>
      let changes := compareOperations path method oldOp newOp in
      let d := fold_left add_change changes d in
      match foldM (breaking_step path method) changes d with
      | Some d => Some (if Nat.ltb 0 (length changes) then incr_modified d else d)
      | None => None
      end
  | None => Some d
  end.

(** Find modified endpoints. *)
Definition modified_step (d : Diff) (pm : string * list (string * obj))
  : option Diff :=
  let '(path, oldMethods) := pm in
  match lookup path newPaths with
  | Some newMethods => foldM (operation_step path newMethods) oldMethods d
  | None => Some d
  end.
End Compare.

(** How a call returns: with [(diff, err)], or by a run-time panic. *)
Inductive outcome :=
| Returned (d : Diff) (err : option string)
| Panicked.

Definition Compare (oldSpec newSpec : obj) : outcome :=
  let diff := mkDiff (getVersion oldSpec) (getVersion newSpec) [] []
                     (mkSummary 0 0 0 0) in
  let oldPaths := getPaths oldSpec in
  let newPaths := getPaths newSpec in
  let diff := fold_left (added_step oldPaths) newPaths diff in
  let diff := fold_left (removed_step newPaths) oldPaths diff in
  match foldM (modified_step newPaths) oldPaths diff with
  | Some diff => Returned diff None
  | None => Panicked
  end.

(** The end-to-end scenario of the spec. *)
Definition op_post (req : list string) : value :=
  VObj [("requestBody", VObj [("content", VObj [("application/json",
          VObj [("schema", VObj [("required", VArr (map VStr req))])])])])].

Definition seed_old : obj :=
  [("info", VObj [("version", VStr "1.0.0")]);
   ("paths", VObj [
      ("/users", VObj [("get", VObj []); ("post", op_post ["name"])]);
      ("/users/{id}", VObj [("get", VObj []); ("delete", VObj [])])])].

Definition seed_new : obj :=
  [("info", VObj [("version", VStr "2.0.0")]);
   ("paths", VObj [
      ("/users", VObj [("get", VObj []); ("post", op_post ["name"; "email"])]);
      ("/users/{id}", VObj [("get", VObj [])]);
      ("/products", VObj [("get", VObj [])])])].

(** ** changelog.go *)

(** [ChangelogEntry]; [Date] is held already formatted as ["2006-01-02"]
    ([time.Now()] is an input of [Generate]). *)
Record ChangelogEntry := mkChangelogEntry {
  Version : string;
  Date : string;
  Added : list string;
  Changed : list string;
  Removed : list string;
  Fixed : list string;
  BreakingItems : list string
}.

Definition changelog_step (e : ChangelogEntry) (change : Change) : ChangelogEntry :=
  let '(mkChangelogEntry v dt a c r f b) := e in
  let desc := Description change in
  match Type_ change with
  | ChangeAdded => mkChangelogEntry v dt (a ++ [desc])%list c r f b
  | ChangeRemoved =>
      mkChangelogEntry v dt a c (r ++ [desc])%list f
        (if IsBreaking change then (b ++ [desc])%list else b)
  | ChangeModified =>
      mkChangelogEntry v dt a (c ++ [desc])%list r f
        (if IsBreaking change then (b ++ [desc])%list else b)
  end.

Definition ChangelogGenerate (now : string) (diff : Diff) : ChangelogEntry :=
  fold_left changelog_step (Changes diff)
    (mkChangelogEntry (NewVersion diff) now [] [] [] [] []).

(** The newline character. *)
Definition nl : string := String (ascii_of_nat 10) "".

(** One [if len(items) > 0 { ... }] block of [ToMarkdown] on the builder [sb]. *)
Definition write_section (sb title : string) (items : list string) : string :=
  if Nat.ltb 0 (List.length items) then
    let sb := sb ++ "### " ++ title ++ nl ++ nl in
    let sb := fold_left (fun sb item => sb ++ "- " ++ item ++ nl) items sb in
    sb ++ nl
  else sb.

Definition breaking_title : string := "⚠️ Breaking Changes".

Definition ChangelogToMarkdown (e : ChangelogEntry) : string :=
  let sb := "## [" ++ Version e ++ "] - " ++ Date e ++ nl ++ nl in
  let sb := write_section sb breaking_title (BreakingItems e) in
  let sb := write_section sb "Added" (Added e) in
  let sb := write_section sb "Changed" (Changed e) in
  let sb := write_section sb "Removed" (Removed e) in
  sb.

Definition GenerateChangelog (now : string) (diff : Diff) : string :=
  ChangelogToMarkdown (ChangelogGenerate now diff).

(** ** Migration guide (breaking.go) *)

Record MigrationStep := mkMigrationStep {
  Title : string;
  StepDescription : string;
  Before : string;
  After : string;
  Endpoint : string;
  StepMethod : string
}.

Record MigrationGuide := mkMigrationGuide {
  FromVersion : string;
  ToVersion : string;
  Steps : list MigrationStep
}.

(** [strings.Contains(s, substr)]. *)
Fixpoint str_contains (s substr : string) : bool :=
  String.prefix substr s ||
  match s with
  | EmptyString => false
  | String _ t => str_contains t substr
  end.

Definition createMigrationStep (breaking : BreakingChange) : MigrationStep :=
  let m := BMethod breaking in
  let p := BPath breaking in
  if str_contains (Reason breaking) "removed" then
    mkMigrationStep ("Handle removed endpoint: " ++ m ++ " " ++ p)
      (Migration breaking) ("// Old code using " ++ m ++ " " ++ p)
      "// Remove or replace with alternative endpoint" p m
  else if str_contains (Reason breaking) "required" then
    mkMigrationStep ("Add required field for: " ++ m ++ " " ++ p)
      (Migration breaking) "// Request without the new required field"
      "// Add the new required field to your request" p m
  else if str_contains (Reason breaking) "parameter" then
    mkMigrationStep ("Update parameters for: " ++ m ++ " " ++ p)
      (Migration breaking) "// Old parameter usage" "// Updated parameter usage" p m
  else
    mkMigrationStep ("Update: " ++ m ++ " " ++ p) (Migration breaking) "" "" p m.

Definition MigrationGenerate (diff : Diff) : MigrationGuide :=
  fold_left (fun guide breaking =>
               mkMigrationGuide (FromVersion guide) (ToVersion guide)
                 (Steps guide ++ [createMigrationStep breaking])%list)
            (Breaking diff)
            (mkMigrationGuide (OldVersion diff) (NewVersion diff) []).

(** [fmt.Sprintf("%d", n)]. *)
Definition itoa (n : nat) : string := NilZero.string_of_uint (Nat.to_uint n).

(** The body of [for i, step := range g.Steps]. *)
Definition write_step (sb : string) (i : nat) (step : MigrationStep) : string :=
  let sb := sb ++ "## " ++ itoa (i + 1) ++ ". " ++ Title step ++ nl ++ nl in
  let sb := sb ++ "**Endpoint:** `" ++ StepMethod step ++ " " ++ Endpoint step ++ "`" ++ nl ++ nl in
  let sb := sb ++ StepDescription step ++ nl ++ nl in
  let sb := if String.eqb (Before step) "" then sb
            else sb ++ "**Before:**" ++ nl ++ "```" ++ nl ++ Before step
                    ++ nl ++ "```" ++ nl ++ nl in
  let sb := if String.eqb (After step) "" then sb
            else sb ++ "**After:**" ++ nl ++ "```" ++ nl ++ After step
                    ++ nl ++ "```" ++ nl ++ nl in
  sb.

Fixpoint write_steps (sb : string) (i : nat) (steps : list MigrationStep) : string :=
  match steps with
  | [] => sb
  | step :: t => write_steps (write_step sb i step) (S i) t
  end.

Definition no_migration : string := "No breaking changes. No migration required.".

Definition MigrationToMarkdown (g : MigrationGuide) : string :=
  let sb := "# Migration Guide: " ++ FromVersion g ++ " → " ++ ToVersion g ++ nl ++ nl in
  if Nat.eqb (List.length (Steps g)) 0 then sb ++ no_migration ++ nl
  else
    let sb := sb ++ "This guide covers " ++ itoa (List.length (Steps g))
                 ++ " breaking change(s) that require updates." ++ nl ++ nl in
    write_steps sb 0 (Steps g).

Definition GenerateMigrationGuide (diff : Diff) : string :=
  MigrationToMarkdown (MigrationGenerate diff).

(** ** [Diff.HasBreakingChanges] *)

Definition HasBreakingChanges (d : Diff) : bool :=
  Nat.ltb 0 (BreakingChanges (Summary_ d)).

(** ** Breaking-change rules (breaking.go)

    In a module of their own: the field names of [BreakingChangeRule] and
    the function [IsBreaking] would clash with those of [Change]. *)
Module BreakingRules.

(** [BreakingChangeType] values. *)
Definition BreakingEndpointRemoved : string := "endpoint_removed".
Definition BreakingParameterRemoved : string := "parameter_removed".
Definition BreakingRequiredAdded : string := "required_field_added".
Definition BreakingResponseRemoved : string := "response_removed".
Definition BreakingTypeChanged : string := "type_changed".
Definition BreakingRequestBodyRemoved : string := "request_body_removed".
Definition BreakingSecurityAdded : string := "security_added".

(** [Check] is a function field, [nil] in every default rule: [None]. *)
Record BreakingChangeRule := mkBreakingChangeRule {
  Type_ : string;
  Description : string;
  Severity : string;
  Check : option (obj -> obj -> bool)
}.

Definition DefaultBreakingRules : list BreakingChangeRule :=
  [mkBreakingChangeRule BreakingEndpointRemoved
     "Removing an endpoint breaks existing clients" "error" None;
   mkBreakingChangeRule BreakingParameterRemoved
     "Removing a parameter may break clients that send it" "error" None;
   mkBreakingChangeRule BreakingRequiredAdded
     "Adding a required field breaks clients not sending it" "error" None;
   mkBreakingChangeRule BreakingResponseRemoved
     "Removing a response code may break client error handling" "warning" None;
   mkBreakingChangeRule BreakingTypeChanged
     "Changing a field type breaks serialization" "error" None].

(** [breakingTypes[changeType]]: a missing key reads as [false]. *)
Definition IsBreaking (changeType : string) : bool :=
  let breakingTypes :=
    [(BreakingEndpointRemoved, true); (BreakingParameterRemoved, true);
     (BreakingRequiredAdded, true); (BreakingResponseRemoved, true);
     (BreakingTypeChanged, true); (BreakingRequestBodyRemoved, true);
     (BreakingSecurityAdded, true)] in
  match lookup changeType breakingTypes with
  | Some b => b
  | None => false
  end.

End BreakingRules.

(** ** Auxiliary definitions of the proofs *)

(** The descriptions [compareOperations] creates. *)
Inductive op_description : string -> Prop :=
| desc_body_removed : op_description "Request body removed"
| desc_body_added : op_description "Required request body added"
| desc_field f : op_description ("New required field: " ++ f)
| desc_code code : op_description ("Response code " ++ code ++ " removed")
| desc_param name : op_description ("Parameter '" ++ name ++ "' removed")
| desc_new_param name : op_description ("New required parameter: " ++ name).

Definition bump (d : Diff) (cs : list Change) (bs : list BreakingChange)
  (a r m b : nat) : Diff :=
  let s := Summary_ d in
  mkDiff (OldVersion d) (NewVersion d) (Changes d ++ cs) (Breaking d ++ bs)
    (mkSummary (AddedEndpoints s + a) (RemovedEndpoints s + r)
               (ModifiedEndpoints s + m) (BreakingChanges s + b)).

Definition added_for (oldPaths : paths_map) (path : string)
  (methods : list (string * obj)) : list Change :=
  flat_map (fun '(method, _) =>
              if method_absent oldPaths path method then
                [mkChange ChangeAdded path method
                   ("New endpoint: " ++ method ++ " " ++ path) false]
              else []) methods.

Definition added_list (oldPaths newPaths : paths_map) : list Change :=
  flat_map (fun '(path, methods) => added_for oldPaths path methods) newPaths.

(** The change and the breaking change of one removed endpoint. *)
Definition removed_pair (path method : string) : Change * BreakingChange :=
  (mkChange ChangeRemoved path method
     ("Removed endpoint: " ++ method ++ " " ++ path) true,
   mkBreakingChange path method "Endpoint removed"
     "Update client code to use alternative endpoint or remove usage").

Definition removed_for (newPaths : paths_map) (path : string)
  (methods : list (string * obj)) : list (Change * BreakingChange) :=
  flat_map (fun '(method, _) =>
              if method_absent newPaths path method
              then [removed_pair path method] else []) methods.

Definition removed_pairs (oldPaths newPaths : paths_map)
  : list (Change * BreakingChange) :=
  flat_map (fun '(path, methods) => removed_for newPaths path methods) oldPaths.

(** The operations compared by the third loop, with their path and method. *)
Definition op_quad := (string * string * obj * obj)%type.

Definition mod_ops_for (path : string) (newMethods : list (string * obj))
  (oldMethods : list (string * obj)) : list op_quad :=
  flat_map (fun '(method, oldOp) =>
              match lookup method newMethods with
              | Some newOp => [(path, method, oldOp, newOp)]
              | None => []
              end) oldMethods.

Definition mod_ops (oldPaths newPaths : paths_map) : list op_quad :=
  flat_map (fun '(path, oldMethods) =>
              match lookup path newPaths with
              | Some newMethods => mod_ops_for path newMethods oldMethods
              | None => []
              end) oldPaths.

Definition quad_changes (q : op_quad) : list Change :=
  let '(path, method, oldOp, newOp) := q in compareOperations path method oldOp newOp.

Definition mod_changes (qs : list op_quad) : list Change := flat_map quad_changes qs.

Definition mod_count (qs : list op_quad) : nat :=
  length (filter (fun q => Nat.ltb 0 (length (quad_changes q))) qs).

(** The migration hint, [""] standing for a panic. *)
Definition mig_of (c : Change) : string :=
  match getMigrationGuide c with Some s => s | None => "" end.

Definition breaking_of (c : Change) : BreakingChange :=
  mkBreakingChange (Path c) (Method c) (Description c) (mig_of c).

(** The body of the inner loop of the third loop, on one operation pair. *)
Definition op_body (d : Diff) (q : op_quad) : option Diff :=
  let '(path, method, oldOp, newOp) := q in
  let changes := compareOperations path method oldOp newOp in
  let d := fold_left add_change changes d in
  match foldM (breaking_step path method) changes d with
  | Some d => Some (if Nat.ltb 0 (length changes) then incr_modified d else d)
  | None => None
  end.

(** The lists [Compare] builds: [compare_added], [compare_removed] (each
    removed endpoint with its breaking change) and [compare_modified]. *)
Definition compare_added (oldSpec newSpec : obj) : list Change :=
  added_list (getPaths oldSpec) (getPaths newSpec).
Definition compare_removed (oldSpec newSpec : obj) : list (Change * BreakingChange) :=
  removed_pairs (getPaths oldSpec) (getPaths newSpec).
Definition compare_ops (oldSpec newSpec : obj) : list op_quad :=
  mod_ops (getPaths oldSpec) (getPaths newSpec).
Definition compare_modified (oldSpec newSpec : obj) : list Change :=
  mod_changes (compare_ops oldSpec newSpec).

(** How a [BreakingChange] is derived from the breaking [Change] it reports. *)
Definition breaking_for (c : Change) (b : BreakingChange) : Prop :=
  BPath b = Path c /\ BMethod b = Method c /\
  match Type_ c with
  | ChangeRemoved =>
      Reason b = "Endpoint removed" /\
      Migration b = "Update client code to use alternative endpoint or remove usage"
  | ChangeModified =>
      Reason b = Description c /\ getMigrationGuide c = Some (Migration b)
  | ChangeAdded => False
  end.

Definition obj_entries (l : list (string * value)) : list (string * obj) :=
  flat_map (fun '(method, op) =>
              match op with VObj opMap => [(method, opMap)] | _ => [] end) l.

Definition is_removed (c : Change) : bool :=
  match Type_ c with ChangeRemoved => true | _ => false end.
Definition is_modified (c : Change) : bool :=
  match Type_ c with ChangeModified => true | _ => false end.

(** [Change{kind: Removed, isBreaking: true}] at [path], [method]. *)
Definition removed_at (path method : string) (c : Change) : bool :=
  is_removed c && String.eqb (Path c) path && String.eqb (Method c) method
  && IsBreaking c.

(** [BreakingChange{reason: "Endpoint removed", migration: ...}] at [path], [method]. *)
Definition removal_entry_at (path method : string) (b : BreakingChange) : bool :=
  String.eqb (BPath b) path && String.eqb (BMethod b) method
  && String.eqb (Reason b) "Endpoint removed"
  && String.eqb (Migration b) "Update client code to use alternative endpoint or remove usage".

(** An operation whose request body has [required] as its [required] entry. *)
Definition op_with_body (required : value) : obj :=
  [("requestBody", VObj [("required", required)])].

(** An operation whose body lists [req] as required in one media type,
    and one that lists it in two. *)
Definition one_media (req : list string) : obj :=
  [("requestBody", VObj [("content", VObj [
      ("application/json", VObj [("schema", VObj [("required", VArr (map VStr req))])])])])].

Definition two_media (req : list string) : obj :=
  [("requestBody", VObj [("content", VObj [
      ("application/json", VObj [("schema", VObj [("required", VArr (map VStr req))])]);
      ("application/xml", VObj [("schema", VObj [("required", VArr (map VStr req))])])])])].

Definition dup_old : obj :=
  [("paths", VObj [("/users", VObj [("post", VObj (one_media ["name"]))])])].

Definition dup_new : obj :=
  [("paths", VObj [("/users", VObj [("post", VObj (two_media ["name"; "email"]))])])].

(** The rule table of the specification, written from its words (exact
    matches, then prefixes, first match wins), to be compared with
    [getMigrationGuide] on the descriptions [compareOperations] produces. *)
Definition spec_migration (description : string) : string :=
  if String.eqb description "Request body removed" then
    "Remove request body from client calls"
  else if String.eqb description "Required request body added" then
    "Add required request body to client calls"
  else if String.prefix "New required field" description then
    "Add the new required field to request payload"
  else if String.prefix "Response code" description then
    "Update client to handle the removed response code"
  else if String.prefix "Parameter" description then
    "Update client to remove usage of the deleted parameter"
  else if String.prefix "New required parameter" description then
    "Add the new required parameter to client calls"
  else "Review the change and update client code accordingly".

(** The failing input: an operation that gains the required parameter [id]. *)
Definition param_old : obj :=
  [("paths", VObj [("/items", VObj [("get", VObj [])])])].

Definition param_new : obj :=
  [("paths", VObj [("/items", VObj [("get", VObj [("parameters",
      VArr [VObj [("name", VStr "id"); ("required", VBool true)]])])])])].

(** The kind tests of a [switch change.Type]. *)
Definition is_added (c : Change) : bool :=
  match Type_ c with ChangeAdded => true | _ => false end.

(** The text [for _, item := range items { ... }] writes. *)
Fixpoint bullets (items : list string) : string :=
  match items with
  | [] => ""
  | item :: t => "- " ++ item ++ nl ++ bullets t
  end.

(** The text one [if len(items) > 0] block of [ToMarkdown] writes. *)
Definition section (title : string) (items : list string) : string :=
  match items with
  | [] => ""
  | _ => "### " ++ title ++ nl ++ nl ++ bullets items ++ nl
  end.

(** A diff whose only change is an added endpoint flagged as breaking. *)
Definition added_breaking_diff : Diff :=
  mkDiff "1.0.0" "2.0.0"
    [mkChange ChangeAdded "/x" "get" "New endpoint: get /x" true]
    [] (mkSummary 1 0 0 1).

(** The text the loop over the steps writes, from index [i] on. *)
Fixpoint step_blocks (i : nat) (steps : list MigrationStep) : string :=
  match steps with
  | [] => ""
  | step :: t => write_step "" i step ++ step_blocks (S i) t
  end.

(** A document with the single endpoint [get /users]. *)
Definition users_get : obj :=
  [("paths", VObj [("/users", VObj [("get", VObj [])])])].

(** The endpoints listed by a [paths_map], with a kind. *)
Definition endpoints (kind : ChangeType) (paths : paths_map)
  : list (ChangeType * string * string) :=
  flat_map (fun '(path, methods) => map (fun '(method, _) => (kind, path, method)) methods)
           paths.

(** The body of the loop of [getParameters]. *)
Definition param_step (result : list (string * obj)) (p : value) : list (string * obj) :=
  match p with
  | VObj param =>
      match as_str (lookup "name" param) with
      | Some name => assoc_insert name param result
      | None => result
      end
  | _ => result
  end.

(** An element of [parameters] that is an object named [k]. *)
Definition named (k : string) (p : value) : bool :=
  match p with
  | VObj param =>
      match as_str (lookup "name" param) with
      | Some name => String.eqb name k
      | None => false
      end
  | _ => false
  end.

(** An operation listing two parameters named [id]. *)
Definition two_ids : obj :=
  [("parameters", VArr [VObj [("name", VStr "id"); ("in", VStr "query")];
                        VObj [("name", VStr "id"); ("required", VBool true)]])].

(** An operation with one parameter [id]. *)
Definition id_param (required : bool) : obj :=
  [("parameters", VArr [VObj [("name", VStr "id"); ("required", VBool required)]])].

(** An operation with the response codes [codes]. *)
Definition with_responses (codes : list string) : obj :=
  [("responses", VObj (map (fun c => (c, VObj [])) codes))].

(** An [Added] change at [path], [method]. *)
Definition added_at (path method : string) (c : Change) : bool :=
  is_added c && String.eqb (Path c) path && String.eqb (Method c) method.

(** * Proofs *)

(** ** Strings and migration hints *)

Lemma str_length_app (s1 s2 : string) :
  String.length (s1 ++ s2) = String.length s1 + String.length s2.
Proof. induction s1 as [|c s1 IH]; simpl; auto. Qed.

Lemma slice_in_bounds (n : nat) (s : string) :
  n <= String.length s -> slice n s = Some (substring 0 n s).
Proof.
  intros H. unfold slice. apply Nat.leb_le in H. now rewrite H.
Qed.

Lemma mg_field (c : Change) f :
  Description c = "New required field: " ++ f ->
  getMigrationGuide c = Some "Add the new required field to request payload".
Proof. intros H. unfold getMigrationGuide. rewrite H. reflexivity. Qed.

Lemma mg_code (c : Change) code :
  Description c = "Response code " ++ code ++ " removed" ->
  getMigrationGuide c = Some "Update client to handle the removed response code".
Proof.
  intros H. unfold getMigrationGuide. rewrite H.
  rewrite (slice_in_bounds 18)
    by (rewrite !str_length_app; simpl String.length; lia).
  reflexivity.
Qed.

Lemma mg_param (c : Change) name :
  Description c = "Parameter '" ++ name ++ "' removed" ->
  getMigrationGuide c = Some "Update client to remove usage of the deleted parameter".
Proof.
  intros H. unfold getMigrationGuide. rewrite H.
  rewrite (slice_in_bounds 18)
    by (rewrite !str_length_app; simpl String.length; lia).
  rewrite (slice_in_bounds 13)
    by (rewrite !str_length_app; simpl String.length; lia).
  reflexivity.
Qed.

Lemma mg_new_param (c : Change) name :
  Description c = "New required parameter: " ++ name ->
  getMigrationGuide c = Some "Review the change and update client code accordingly".
Proof. intros H. unfold getMigrationGuide. rewrite H. reflexivity. Qed.

(** ** Shape of the per-operation changes *)

Lemma in_flat_map_if {A : Type} (g : A -> bool) (mk : A -> Change)
  (c : Change) (l : list A) :
  In c (flat_map (fun x => if g x then [] else [mk x]) l) ->
  exists x, In x l /\ c = mk x.
Proof.
  intros H. apply in_flat_map in H as [x [Hx Hc]].
  destruct (g x); simpl in Hc; [contradiction|].
  destruct Hc as [<-|[]]. eauto.
Qed.

Ltac change_fields :=
  unfold modified; cbn [Description Type_ Path Method IsBreaking];
  repeat split; constructor.

Lemma compareOperations_shape p m oldOp newOp c :
  In c (compareOperations p m oldOp newOp) ->
  Type_ c = ChangeModified /\ Path c = p /\ Method c = m /\
  IsBreaking c = true /\ op_description (Description c).
Proof.
  unfold compareOperations. rewrite !in_app_iff.
  intros [H|[H|[H|[H|H]]]].
  - unfold bodyChanges in H.
    destruct (getRequestBody oldOp) as [ob|], (getRequestBody newOp) as [nb|].
    + contradiction.
    + destruct H as [<-|[]]. change_fields.
    + destruct (as_bool (lookup "required" nb)) as [[|]|]; simpl in H;
        [destruct H as [<-|[]]; change_fields|contradiction..].
    + contradiction.
  - unfold requiredFieldChanges in H. cbv zeta in H.
    apply in_flat_map_if in H as [f [_ ->]].
    change_fields.
  - unfold responseChanges in H. cbv zeta in H.
    apply in_flat_map_if in H as [code [_ ->]].
    change_fields.
  - unfold removedParamChanges in H. apply in_flat_map in H as [[name v] [_ H]].
    destruct (lookup name _); simpl in H; [contradiction|].
    destruct H as [<-|[]]. change_fields.
  - unfold newParamChanges in H. apply in_flat_map in H as [[name v] [_ H]].
    destruct (lookup name _); simpl in H; [contradiction|].
    destruct (isParamRequired v); simpl in H; [|contradiction].
    destruct H as [<-|[]]. change_fields.
Qed.

Lemma getMigrationGuide_total c :
  op_description (Description c) -> exists s, getMigrationGuide c = Some s.
Proof.
  intros H. remember (Description c) as d eqn:Hd. symmetry in Hd.
  destruct H.
  - unfold getMigrationGuide. rewrite Hd. eexists; reflexivity.
  - unfold getMigrationGuide. rewrite Hd. eexists; reflexivity.
  - eexists. eapply mg_field; eauto.
  - eexists. eapply mg_code; eauto.
  - eexists. eapply mg_param; eauto.
  - eexists. eapply mg_new_param; eauto.
Qed.

(** ** The three loops of [Compare] as lists

    Each loop appends a list of changes (and of breaking changes) to the
    diff and adds to the counters; [bump] states that update at once. *)

Ltac diff_eq :=
  match goal with d : Diff |- _ => destruct d as [? ? ? ? [? ? ? ?]] end;
  unfold bump, add_change, add_breaking, incr_added, incr_removed,
    incr_modified, incr_breaking, set_summary;
  cbn [OldVersion NewVersion Changes Breaking Summary_ AddedEndpoints
       RemovedEndpoints ModifiedEndpoints BreakingChanges];
  f_equal;
  first [ reflexivity
        | rewrite ?length_app; cbn [length]; f_equal; lia
        | rewrite ?app_nil_r, <- ?app_assoc; reflexivity ].

Lemma bump_nil (d : Diff) : bump d [] [] 0 0 0 0 = d.
Proof. diff_eq. Qed.

Lemma bump_bump (d : Diff) cs1 bs1 a1 r1 m1 b1 cs2 bs2 a2 r2 m2 b2 :
  bump (bump d cs1 bs1 a1 r1 m1 b1) cs2 bs2 a2 r2 m2 b2 =
  bump d (cs1 ++ cs2) (bs1 ++ bs2) (a1 + a2) (r1 + r2) (m1 + m2) (b1 + b2).
Proof. diff_eq. Qed.

Lemma added_step_spec oldPaths d path methods :
  added_step oldPaths d (path, methods) =
  bump d (added_for oldPaths path methods) []
    (length (added_for oldPaths path methods)) 0 0 0.
Proof.
  unfold added_step, added_for. revert d.
  induction methods as [|[method op] t IH]; intros d; cbn [fold_left flat_map].
  - now rewrite bump_nil.
  - destruct (method_absent oldPaths path method); rewrite IH; [|reflexivity].
    diff_eq.
Qed.

Lemma added_loop oldPaths newPaths d :
  fold_left (added_step oldPaths) newPaths d =
  bump d (added_list oldPaths newPaths) []
    (length (added_list oldPaths newPaths)) 0 0 0.
Proof.
  unfold added_list. revert d.
  induction newPaths as [|[path methods] t IH]; intros d; cbn [fold_left flat_map].
  - now rewrite bump_nil.
  - rewrite IH, added_step_spec, bump_bump, length_app. reflexivity.
Qed.

Lemma removed_step_spec newPaths d path methods :
  removed_step newPaths d (path, methods) =
  let l := removed_for newPaths path methods in
  bump d (map fst l) (map snd l) 0 (length l) 0 (length l).
Proof.
  unfold removed_step, removed_for. revert d.
  induction methods as [|[method op] t IH]; intros d; cbn [fold_left flat_map].
  - now rewrite bump_nil.
  - destruct (method_absent newPaths path method); rewrite IH; [|reflexivity].
    diff_eq.
Qed.

Lemma removed_loop oldPaths newPaths d :
  fold_left (removed_step newPaths) oldPaths d =
  let l := removed_pairs oldPaths newPaths in
  bump d (map fst l) (map snd l) 0 (length l) 0 (length l).
Proof.
  unfold removed_pairs. revert d.
  induction oldPaths as [|[path methods] t IH]; intros d; cbn [fold_left flat_map].
  - now rewrite bump_nil.
  - rewrite IH, removed_step_spec. cbv zeta.
    rewrite bump_bump, !map_app, length_app. reflexivity.
Qed.

Lemma fold_add_change cs d : fold_left add_change cs d = bump d cs [] 0 0 0 0.
Proof.
  revert d. induction cs as [|c t IH]; intros d; cbn [fold_left].
  - now rewrite bump_nil.
  - rewrite IH. diff_eq.
Qed.

Lemma add_incr_breaking d b :
  add_breaking (incr_breaking d) b = bump d [] [b] 0 0 0 1.
Proof. diff_eq. Qed.

Lemma incr_modified_bump d : incr_modified d = bump d [] [] 0 0 1 0.
Proof. diff_eq. Qed.

Lemma breaking_fold path method cs d :
  (forall c, In c cs -> Path c = path /\ Method c = method /\
                        op_description (Description c)) ->
  foldM (breaking_step path method) cs d =
  Some (bump d [] (map breaking_of (filter IsBreaking cs)) 0 0 0
             (length (filter IsBreaking cs))).
Proof.
  revert d. induction cs as [|c t IH]; intros d Hcs; cbn [foldM filter].
  - now rewrite bump_nil.
  - destruct (Hcs c (or_introl eq_refl)) as [Hp [Hm Hd]].
    assert (Ht : forall c', In c' t -> Path c' = path /\ Method c' = method /\
                                       op_description (Description c'))
      by (intros; apply Hcs; now right).
    unfold breaking_step. destruct (IsBreaking c).
    + destruct (getMigrationGuide_total c Hd) as [s Hs]. rewrite Hs.
      rewrite (IH _ Ht), add_incr_breaking, bump_bump. cbn [map length].
      unfold breaking_of, mig_of. rewrite Hs, Hp, Hm. reflexivity.
    + rewrite (IH _ Ht). reflexivity.
Qed.

Lemma op_body_spec d q :
  op_body d q =
  let cs := quad_changes q in
  Some (bump d cs (map breaking_of (filter IsBreaking cs)) 0 0
             (if Nat.ltb 0 (length cs) then 1 else 0)
             (length (filter IsBreaking cs))).
Proof.
  destruct q as [[[path method] oldOp] newOp]. unfold op_body, quad_changes.
  rewrite fold_add_change, breaking_fold.
  - rewrite bump_bump. destruct (Nat.ltb 0 _).
    + rewrite incr_modified_bump, bump_bump, !app_nil_r, !Nat.add_0_r. reflexivity.
    + rewrite !app_nil_r, !Nat.add_0_r. reflexivity.
  - intros c Hc. apply compareOperations_shape in Hc. tauto.
Qed.

Lemma op_body_loop qs d :
  foldM op_body qs d =
  let cs := mod_changes qs in
  Some (bump d cs (map breaking_of (filter IsBreaking cs)) 0 0 (mod_count qs)
             (length (filter IsBreaking cs))).
Proof.
  revert d. induction qs as [|q t IH]; intros d; cbn [foldM].
  - cbn. now rewrite bump_nil.
  - rewrite op_body_spec. cbv beta iota zeta. rewrite IH. cbv zeta. rewrite bump_bump.
    unfold mod_changes, mod_count. cbn [flat_map filter].
    rewrite filter_app, map_app, length_app.
    destruct (Nat.ltb 0 (length (quad_changes q))); reflexivity.
Qed.

Lemma foldM_app {A B : Type} (f : B -> A -> option B) l1 l2 b :
  foldM f (l1 ++ l2) b =
  match foldM f l1 b with Some b' => foldM f l2 b' | None => None end.
Proof.
  revert b. induction l1 as [|x t IH]; intros b; cbn; [reflexivity|].
  destruct (f b x); [apply IH|reflexivity].
Qed.

Lemma operation_step_body path newMethods d method oldOp :
  operation_step path newMethods d (method, oldOp) =
  match lookup method newMethods with
  | Some newOp => op_body d (path, method, oldOp, newOp)
  | None => Some d
  end.
Proof. reflexivity. Qed.

Lemma modified_loop oldPaths newPaths d :
  foldM (modified_step newPaths) oldPaths d =
  foldM op_body (mod_ops oldPaths newPaths) d.
Proof.
  revert d. unfold mod_ops.
  induction oldPaths as [|[path oldMethods] t IH]; intros d; [reflexivity|].
  cbn [foldM flat_map]. rewrite foldM_app. unfold modified_step at 1.
  destruct (lookup path newPaths) as [newMethods|]; [|apply IH].
  assert (Hin : forall d', foldM (operation_step path newMethods) oldMethods d' =
                     foldM op_body (mod_ops_for path newMethods oldMethods) d').
  { unfold mod_ops_for. clear IH.
    induction oldMethods as [|[method oldOp] u IHm]; intros d'; [reflexivity|].
    cbn [foldM flat_map]. rewrite foldM_app, operation_step_body.
    destruct (lookup method newMethods) as [newOp|]; [|apply IHm].
    cbn [foldM]. destruct (op_body d' (path, method, oldOp, newOp)) as [d''|].
    - apply IHm.
    - reflexivity. }
  rewrite Hin. destruct (foldM op_body _ d); [apply IH|reflexivity].
Qed.

(** ** Closed form of [Compare] *)

Lemma Compare_spec oldSpec newSpec :
  let A := compare_added oldSpec newSpec in
  let R := compare_removed oldSpec newSpec in
  let M := compare_modified oldSpec newSpec in
  Compare oldSpec newSpec =
  Returned
    (mkDiff (getVersion oldSpec) (getVersion newSpec)
       (A ++ map fst R ++ M)
       (map snd R ++ map breaking_of (filter IsBreaking M))
       (mkSummary (length A) (length R) (mod_count (compare_ops oldSpec newSpec))
                  (length R + length (filter IsBreaking M))))
    None.
Proof.
  unfold Compare, compare_added, compare_removed, compare_modified, compare_ops.
  cbv zeta.
  rewrite added_loop, removed_loop, modified_loop, op_body_loop.
  cbv zeta. rewrite !bump_bump. unfold bump. cbn.
  rewrite !app_assoc, !Nat.add_0_r. reflexivity.
Qed.

(** ** Element shapes of the three lists *)

Lemma added_list_shape oldPaths newPaths c :
  In c (added_list oldPaths newPaths) ->
  Type_ c = ChangeAdded /\ IsBreaking c = false.
Proof.
  unfold added_list, added_for. intros H.
  apply in_flat_map in H as [[path methods] [_ H]].
  apply in_flat_map in H as [[method op] [_ H]].
  destruct (method_absent oldPaths path method); [|contradiction].
  destruct H as [<-|[]]. split; reflexivity.
Qed.

Lemma removed_pairs_shape oldPaths newPaths c b :
  In (c, b) (removed_pairs oldPaths newPaths) ->
  Type_ c = ChangeRemoved /\ IsBreaking c = true /\
  BPath b = Path c /\ BMethod b = Method c /\
  Reason b = "Endpoint removed" /\
  Migration b = "Update client code to use alternative endpoint or remove usage" /\
  method_absent newPaths (Path c) (Method c) = true /\
  exists methods op, In (Path c, methods) oldPaths /\ In (Method c, op) methods.
Proof.
  unfold removed_pairs, removed_for. intros H.
  apply in_flat_map in H as [[path methods] [Hp H]].
  apply in_flat_map in H as [[method op] [Hm H]].
  destruct (method_absent newPaths path method) eqn:E; [|contradiction].
  destruct H as [H|[]]. unfold removed_pair in H. injection H as <- <-. cbn.
  repeat split; auto. eauto.
Qed.

Lemma compare_modified_shape oldSpec newSpec c :
  In c (compare_modified oldSpec newSpec) ->
  Type_ c = ChangeModified /\ IsBreaking c = true /\ op_description (Description c).
Proof.
  unfold compare_modified, mod_changes. intros H.
  apply in_flat_map in H as [[[[p m] o] n] [_ H]].
  apply compareOperations_shape in H. tauto.
Qed.

Lemma filter_all_false {A : Type} (f : A -> bool) l :
  (forall x, In x l -> f x = false) -> filter f l = [].
Proof.
  induction l as [|x t IH]; intros H; cbn; [reflexivity|].
  rewrite (H x (or_introl eq_refl)). apply IH. intros; apply H; now right.
Qed.

Lemma filter_all_true {A : Type} (f : A -> bool) l :
  (forall x, In x l -> f x = true) -> filter f l = l.
Proof.
  induction l as [|x t IH]; intros H; cbn; [reflexivity|].
  rewrite (H x (or_introl eq_refl)), IH; [reflexivity|]. intros; apply H; now right.
Qed.

Lemma op_description_not_removal d :
  op_description d -> d <> "Endpoint removed".
Proof.
  intros H. apply String.eqb_neq. destruct H; reflexivity.
Qed.

Lemma Forall2_map_pairs {A B : Type} (P : A -> B -> Prop) (l : list (A * B)) :
  (forall x y, In (x, y) l -> P x y) -> Forall2 P (map fst l) (map snd l).
Proof.
  induction l as [|[x y] t IH]; intros H; constructor.
  - apply H. now left.
  - apply IH. intros; apply H; now right.
Qed.

Lemma Forall2_map_r {A B : Type} (P : A -> B -> Prop) (f : A -> B) (l : list A) :
  (forall x, In x l -> P x (f x)) -> Forall2 P l (map f l).
Proof.
  induction l as [|x t IH]; intros H; constructor.
  - apply H. now left.
  - apply IH. intros; apply H; now right.
Qed.

Lemma compare_modified_breaking oldSpec newSpec :
  filter IsBreaking (compare_modified oldSpec newSpec) = compare_modified oldSpec newSpec.
Proof.
  apply filter_all_true. intros c Hc. now apply compare_modified_shape in Hc.
Qed.

Lemma compare_changes_breaking oldSpec newSpec :
  filter IsBreaking
    (compare_added oldSpec newSpec ++ map fst (compare_removed oldSpec newSpec)
       ++ compare_modified oldSpec newSpec)%list =
  (map fst (compare_removed oldSpec newSpec) ++ compare_modified oldSpec newSpec)%list.
Proof.
  rewrite !filter_app, compare_modified_breaking.
  rewrite (filter_all_false _ (compare_added _ _)).
  2: { intros c Hc. now apply added_list_shape in Hc. }
  rewrite (filter_all_true _ (map fst _)); [reflexivity|].
  intros c Hc. apply in_map_iff in Hc as [[c' b] [<- Hin]].
  now apply removed_pairs_shape in Hin.
Qed.

(** ** Claims about [Compare] *)

(** C1: for all inputs, [Summary.BreakingChanges = len(Breaking)], which is the
    number of changes with [IsBreaking]; the breaking changes and the
    [Breaking] entries correspond one to one, in order (a removed endpoint
    gives the "Endpoint removed" entry, a breaking modification the entry
    with its description as reason and its migration hint), and no Added
    change is breaking. *)
Theorem Compare_summary_consistent (oldSpec newSpec : obj) :
  exists d, Compare oldSpec newSpec = Returned d None /\
    BreakingChanges (Summary_ d) = length (Breaking d) /\
    length (Breaking d) = length (filter IsBreaking (Changes d)) /\
    Forall2 breaking_for (filter IsBreaking (Changes d)) (Breaking d) /\
    (forall c, In c (Changes d) -> Type_ c = ChangeAdded -> IsBreaking c = false).
Proof.
  rewrite Compare_spec. cbv zeta. eexists; split; [reflexivity|].
  cbn [Changes Breaking Summary_ BreakingChanges].
  rewrite compare_changes_breaking, compare_modified_breaking.
  repeat split.
  - rewrite !length_app, !length_map. reflexivity.
  - rewrite !length_app, !length_map. reflexivity.
  - apply Forall2_app.
    + apply Forall2_map_pairs. intros c b Hin.
      apply removed_pairs_shape in Hin as (Ht & _ & Hp & Hm & Hr & Hmg & _).
      unfold breaking_for. rewrite Ht. auto.
    + apply Forall2_map_r. intros c Hc.
      apply compare_modified_shape in Hc as (Ht & _ & Hd).
      unfold breaking_for, breaking_of, mig_of. rewrite Ht. cbn.
      destruct (getMigrationGuide_total c Hd) as [s Hs]. rewrite Hs. auto.
  - intros c Hc Ht. apply in_app_iff in Hc as [Hc|Hc].
    + now apply added_list_shape in Hc.
    + apply in_app_iff in Hc as [Hc|Hc].
      * apply in_map_iff in Hc as [[c' b] [<- Hin]].
        apply removed_pairs_shape in Hin as [Hr _]. cbn in Ht. congruence.
      * apply compare_modified_shape in Hc as [Hm _]. congruence.
Qed.

(** C5: [Compare] never panics and never returns an error, whatever the
    documents; in particular the description slices [s[:18]], [s[:13]],
    [s[:9]], [s[:21]] of [getMigrationGuide] are in bounds for every change
    whose hint [Compare] computes (the modifications of [compareOperations];
    added and removed endpoints never reach [getMigrationGuide]). *)
Theorem Compare_no_panic (oldSpec newSpec : obj) :
  (exists d, Compare oldSpec newSpec = Returned d None) /\
  (forall c, In c (compare_modified oldSpec newSpec) ->
             exists hint, getMigrationGuide c = Some hint).
Proof.
  split.
  - rewrite Compare_spec. eexists. reflexivity.
  - intros c Hc. apply compare_modified_shape in Hc as (_ & _ & Hd).
    now apply getMigrationGuide_total.
Qed.

(** C7: the changes of every diff come in three groups: all Added changes,
    then all Removed changes, then all Modified changes. *)
Theorem Compare_changes_grouped (oldSpec newSpec : obj) :
  exists d, Compare oldSpec newSpec = Returned d None /\
    exists added removed modified,
      Changes d = (added ++ removed ++ modified)%list /\
      Forall (fun c => Type_ c = ChangeAdded) added /\
      Forall (fun c => Type_ c = ChangeRemoved) removed /\
      Forall (fun c => Type_ c = ChangeModified) modified.
Proof.
  rewrite Compare_spec. cbv zeta. eexists; split; [reflexivity|].
  do 3 eexists. split; [reflexivity|]. repeat split; apply Forall_forall.
  - intros c Hc. now apply added_list_shape in Hc.
  - intros c Hc. apply in_map_iff in Hc as [[c' b] [<- Hin]].
    now apply removed_pairs_shape in Hin.
  - intros c Hc. now apply compare_modified_shape in Hc.
Qed.

(** ** Keys of the maps [Compare] ranges over are distinct *)

Lemma lookup_in {A : Type} (l : list (string * A)) k v :
  lookup k l = Some v -> In (k, v) l.
Proof.
  induction l as [|[k' v'] t IH]; cbn; [discriminate|].
  destruct (String.eqb_spec k k') as [->|_].
  - intros [= ->]. now left.
  - intros H. right. now apply IH.
Qed.

Lemma in_lookup_some {A : Type} (l : list (string * A)) k v :
  In (k, v) l -> exists v', lookup k l = Some v'.
Proof.
  induction l as [|[k' v'] t IH]; cbn; [contradiction|].
  destruct (String.eqb_spec k k') as [->|Hne]; [eauto|].
  intros [H|H]; [injection H as -> ->; contradiction|]. eauto.
Qed.

Lemma in_lookup_nodup {A : Type} (l : list (string * A)) k v :
  NoDup (map fst l) -> In (k, v) l -> lookup k l = Some v.
Proof.
  induction l as [|[k' v'] t IH]; cbn; [contradiction|].
  intros Hnd Hin. inversion Hnd as [|? ? Hnotin Hnd']; subst.
  destruct (String.eqb_spec k k') as [->|Hne].
  - destruct Hin as [[= ->]|Hin]; [reflexivity|].
    exfalso. apply Hnotin. apply in_map_iff. now exists (k', v).
  - destruct Hin as [[= -> ->]|Hin]; [contradiction|]. now apply IH.
Qed.

Lemma NoDup_map_filter {A B : Type} (f : A -> B) (p : A -> bool) l :
  NoDup (map f l) -> NoDup (map f (filter p l)).
Proof.
  induction l as [|x t IH]; cbn; intros Hnd; [constructor|].
  inversion Hnd as [|? ? Hnotin Hnd']; subst.
  destruct (p x); cbn; [|now apply IH].
  constructor; [|now apply IH].
  intros Hin. apply Hnotin. apply in_map_iff in Hin as [y [Hy Hin]].
  apply filter_In in Hin as [Hin _]. apply in_map_iff. eauto.
Qed.

Lemma entries_nodup {A : Type} (m : list (string * A)) :
  NoDup (map fst (entries m)).
Proof.
  induction m as [|[k v] t IH]; cbn; [constructor|].
  constructor; [|now apply NoDup_map_filter].
  intros Hin. apply in_map_iff in Hin as [[k' v'] [Hk Hin]]. cbn in Hk; subst k'.
  apply filter_In in Hin as [_ Hf]. cbn in Hf. now rewrite String.eqb_refl in Hf.
Qed.

Lemma obj_entries_keys l k :
  In k (map fst (obj_entries l)) -> In k (map fst l).
Proof.
  induction l as [|[m op] t IH]; cbn; [auto|].
  destruct op; cbn; try (intros H; right; now apply IH).
  intros [H|H]; [now left|right; now apply IH].
Qed.

Lemma obj_entries_nodup l : NoDup (map fst l) -> NoDup (map fst (obj_entries l)).
Proof.
  induction l as [|[m op] t IH]; cbn; intros Hnd; [constructor|].
  inversion Hnd as [|? ? Hnotin Hnd']; subst.
  destruct op; cbn; try now apply IH.
  constructor; [|now apply IH].
  intros Hin. apply Hnotin. now apply obj_entries_keys.
Qed.

Lemma opMaps_nodup methodMap : NoDup (map fst (opMaps methodMap)).
Proof. apply obj_entries_nodup, entries_nodup. Qed.

Lemma getPaths_nodup spec : NoDup (map fst (getPaths spec)).
Proof.
  unfold getPaths. destruct (as_obj (lookup "paths" spec)) as [paths|]; [|constructor].
  rewrite map_map.
  replace (map _ (entries paths)) with (map fst (entries paths)).
  - apply entries_nodup.
  - apply map_ext. now intros [k v].
Qed.

Lemma getPaths_methods_nodup spec path methods :
  In (path, methods) (getPaths spec) -> NoDup (map fst methods).
Proof.
  unfold getPaths. destruct (as_obj (lookup "paths" spec)) as [paths|]; [|contradiction].
  intros Hin. apply in_map_iff in Hin as [[k v] [Heq _]].
  injection Heq as _ <-. destruct v; try constructor. apply opMaps_nodup.
Qed.

(** ** Comparing a document with itself *)

Lemma contains_in l x : In x l -> contains l x = true.
Proof.
  intros H. unfold contains. apply existsb_exists. exists x.
  split; [assumption|apply String.eqb_refl].
Qed.

Lemma flat_map_all_nil {A B : Type} (f : A -> list B) l :
  (forall x, In x l -> f x = []) -> flat_map f l = [].
Proof.
  induction l as [|x t IH]; intros H; cbn; [reflexivity|].
  rewrite (H x (or_introl eq_refl)). apply IH. intros; apply H; now right.
Qed.

Lemma compareOperations_self path method op :
  compareOperations path method op op = [].
Proof.
  unfold compareOperations.
  assert (Hb : bodyChanges path method op op = []).
  { unfold bodyChanges. now destruct (getRequestBody op). }
  assert (Hr : requiredFieldChanges path method op op = []).
  { unfold requiredFieldChanges. apply flat_map_all_nil.
    intros f Hf. now rewrite contains_in. }
  assert (Hc : responseChanges path method op op = []).
  { unfold responseChanges. apply flat_map_all_nil.
    intros code Hcode. now rewrite contains_in. }
  assert (Hp : removedParamChanges path method op op = []).
  { unfold removedParamChanges. apply flat_map_all_nil.
    intros [name param] Hin. apply in_lookup_some in Hin as [v ->]. reflexivity. }
  assert (Hn : newParamChanges path method op op = []).
  { unfold newParamChanges. apply flat_map_all_nil.
    intros [name param] Hin. apply in_lookup_some in Hin as [v ->]. reflexivity. }
  rewrite Hb, Hr, Hc, Hp, Hn. reflexivity.
Qed.

(** A pair listed in [paths] is not absent from it. *)
Lemma method_present (paths : paths_map) path methods method op :
  NoDup (map fst paths) -> In (path, methods) paths -> In (method, op) methods ->
  method_absent paths path method = false.
Proof.
  intros Hnd Hp Hm. unfold method_absent.
  rewrite (in_lookup_nodup _ _ _ Hnd Hp).
  apply in_lookup_some in Hm as [v ->]. reflexivity.
Qed.

Lemma mod_ops_self (paths : paths_map) q :
  NoDup (map fst paths) ->
  (forall path methods, In (path, methods) paths -> NoDup (map fst methods)) ->
  In q (mod_ops paths paths) -> exists path method op, q = (path, method, op, op).
Proof.
  intros Hnd Hms Hq. unfold mod_ops in Hq.
  apply in_flat_map in Hq as [[path oldMethods] [Hp Hq]].
  rewrite (in_lookup_nodup _ _ _ Hnd Hp) in Hq.
  unfold mod_ops_for in Hq. apply in_flat_map in Hq as [[method op] [Hm Hq]].
  rewrite (in_lookup_nodup _ _ _ (Hms _ _ Hp) Hm) in Hq.
  destruct Hq as [<-|[]]. eauto.
Qed.

(** C2: [Compare(A, A)] has no change, no breaking change and a summary of
    zeros, for every document [A]. *)
Theorem Compare_self (spec : obj) :
  Compare spec spec =
  Returned (mkDiff (getVersion spec) (getVersion spec) [] [] (mkSummary 0 0 0 0)) None.
Proof.
  rewrite Compare_spec. cbv zeta.
  assert (Hnd := getPaths_nodup spec).
  assert (Hms := getPaths_methods_nodup spec).
  assert (HA : compare_added spec spec = []).
  { unfold compare_added, added_list. apply flat_map_all_nil.
    intros [path methods] Hp. unfold added_for. apply flat_map_all_nil.
    intros [method op] Hm. now rewrite (method_present _ _ _ _ _ Hnd Hp Hm). }
  assert (HR : compare_removed spec spec = []).
  { unfold compare_removed, removed_pairs. apply flat_map_all_nil.
    intros [path methods] Hp. unfold removed_for. apply flat_map_all_nil.
    intros [method op] Hm. now rewrite (method_present _ _ _ _ _ Hnd Hp Hm). }
  assert (HQ : forall q, In q (compare_ops spec spec) -> quad_changes q = []).
  { intros q Hq. apply mod_ops_self in Hq as (path & method & op & ->); auto.
    apply compareOperations_self. }
  assert (HM : compare_modified spec spec = []).
  { unfold compare_modified, mod_changes. now apply flat_map_all_nil. }
  assert (HC : mod_count (compare_ops spec spec) = 0).
  { unfold mod_count. rewrite filter_all_false; [reflexivity|].
    intros q Hq. now rewrite HQ. }
  rewrite HA, HR, HM, HC. reflexivity.
Qed.

(** ** Removed endpoints *)

Lemma length_filter_map {A B : Type} (P : B -> bool) (f : A -> B) l :
  length (filter P (map f l)) = length (filter (fun x => P (f x)) l).
Proof.
  induction l as [|x t IH]; cbn; [reflexivity|]. destruct (P (f x)); cbn; auto.
Qed.

Lemma count_unique_key {A B : Type} (l : list (string * A))
  (f : string -> A -> list B) (P : B -> bool) k v n :
  NoDup (map fst l) -> In (k, v) l ->
  (forall k' v', In (k', v') l -> k' <> k -> forall y, In y (f k' v') -> P y = false) ->
  length (filter P (f k v)) = n ->
  length (filter P (flat_map (fun '(k', v') => f k' v') l)) = n.
Proof.
  induction l as [|[k0 v0] t IH]; cbn; [contradiction|].
  intros Hnd Hin Hother Hn. inversion_clear Hnd as [|? ? Hnotin Hnd'].
  rewrite filter_app, length_app.
  destruct Hin as [[= -> ->]|Hin].
  - rewrite Hn, filter_all_false; [cbn; lia|].
    intros y Hy. apply in_flat_map in Hy as [[k' v'] [Hk' Hy]].
    apply (Hother k' v'); auto.
    intros Heq. apply Hnotin, in_map_iff. exists (k', v'). auto.
  - assert (Hne : k0 <> k).
    { intros ->. apply Hnotin. apply in_map_iff. now exists (k, v). }
    rewrite (filter_all_false _ (f k0 v0)).
    + cbn. apply IH; auto.
      intros k' v' Hk'. apply Hother. now right.
    + intros y Hy. apply (Hother k0 v0); auto.
Qed.

(** Any test on a removed pair that singles out [path], [method] finds
    exactly one pair when that endpoint is in the old paths only. *)
Lemma removed_pairs_unique oldPaths newPaths path method
  (P : Change * BreakingChange -> bool) :
  NoDup (map fst oldPaths) ->
  (forall p methods, In (p, methods) oldPaths -> NoDup (map fst methods)) ->
  method_absent oldPaths path method = false ->
  method_absent newPaths path method = true ->
  (forall p m, P (removed_pair p m) = String.eqb p path && String.eqb m method) ->
  length (filter P (removed_pairs oldPaths newPaths)) = 1.
Proof.
  intros Hnd Hms Hold Hnew HP.
  unfold method_absent in Hold.
  destruct (lookup path oldPaths) as [methods|] eqn:Hp; [|discriminate].
  destruct (lookup method methods) as [op|] eqn:Hm; [|discriminate].
  apply lookup_in in Hp, Hm.
  unfold removed_pairs.
  apply (count_unique_key _ (removed_for newPaths) P path methods); auto.
  - intros p' methods' _ Hne y Hy. unfold removed_for in Hy.
    apply in_flat_map in Hy as [[m' op'] [_ Hy]].
    destruct (method_absent newPaths p' m'); [|contradiction].
    destruct Hy as [<-|[]]. rewrite HP.
    now rewrite (proj2 (String.eqb_neq p' path) Hne).
  - unfold removed_for.
    apply (count_unique_key _ (fun m' (_ : obj) =>
             if method_absent newPaths path m' then [removed_pair path m'] else [])
             P method op); eauto.
    + intros m' op' _ Hne y Hy.
      destruct (method_absent newPaths path m'); [|contradiction].
      destruct Hy as [<-|[]]. rewrite HP, String.eqb_refl.
      now apply String.eqb_neq.
    + rewrite Hnew. cbn. rewrite HP, !String.eqb_refl. reflexivity.
Qed.

Lemma filter_subsumed {A : Type} (P Q : A -> bool) l :
  (forall x, P x = true -> Q x = true) -> filter P l = filter P (filter Q l).
Proof.
  intros H. induction l as [|x t IH]; cbn; [reflexivity|].
  destruct (P x) eqn:Hp.
  - rewrite (H x Hp). cbn. now rewrite Hp, IH.
  - destruct (Q x); cbn; [rewrite Hp|]; exact IH.
Qed.

Lemma removed_changes_only oldSpec newSpec :
  filter is_removed
    (compare_added oldSpec newSpec ++ map fst (compare_removed oldSpec newSpec)
       ++ compare_modified oldSpec newSpec)%list =
  map fst (compare_removed oldSpec newSpec).
Proof.
  rewrite !filter_app.
  rewrite (filter_all_false _ (compare_added _ _)).
  2: { intros c Hc. apply added_list_shape in Hc as [Ht _].
       unfold is_removed. now rewrite Ht. }
  rewrite (filter_all_false _ (compare_modified _ _)).
  2: { intros c Hc. apply compare_modified_shape in Hc as [Ht _].
       unfold is_removed. now rewrite Ht. }
  rewrite app_nil_r, filter_all_true; [reflexivity|].
  intros c Hc. apply in_map_iff in Hc as [[c' b] [<- Hin]].
  apply removed_pairs_shape in Hin as [Ht _]. cbn [fst]. unfold is_removed. now rewrite Ht.
Qed.

Lemma modified_breaking_only oldSpec newSpec :
  filter (fun c => is_modified c && IsBreaking c)
    (compare_added oldSpec newSpec ++ map fst (compare_removed oldSpec newSpec)
       ++ compare_modified oldSpec newSpec)%list =
  compare_modified oldSpec newSpec.
Proof.
  rewrite !filter_app.
  rewrite (filter_all_false _ (compare_added _ _)).
  2: { intros c Hc. apply added_list_shape in Hc as [Ht _].
       unfold is_modified. now rewrite Ht. }
  rewrite (filter_all_false _ (map fst _)).
  2: { intros c Hc. apply in_map_iff in Hc as [[c' b] [<- Hin]].
       apply removed_pairs_shape in Hin as [Ht _]. cbn [fst]. unfold is_modified.
       now rewrite Ht. }
  apply filter_all_true. intros c Hc.
  apply compare_modified_shape in Hc as (Ht & Hb & _).
  unfold is_modified. now rewrite Ht, Hb.
Qed.

(** C3: an endpoint (path and method) of the old paths that is absent
    from the new paths has exactly one [Change{Removed, isBreaking: true}]
    and exactly one [BreakingChange{"Endpoint removed", "Update client code
    to use alternative endpoint or remove usage"}]; [RemovedEndpoints]
    counts the removed changes, each of which is such an endpoint, and
    [BreakingChanges] counts them once more besides the breaking
    modifications. *)
Theorem Compare_reports_removal (oldSpec newSpec : obj) (path method : string) :
  method_absent (getPaths oldSpec) path method = false ->
  method_absent (getPaths newSpec) path method = true ->
  exists d, Compare oldSpec newSpec = Returned d None /\
    length (filter (removed_at path method) (Changes d)) = 1 /\
    length (filter (removal_entry_at path method) (Breaking d)) = 1 /\
    RemovedEndpoints (Summary_ d) = length (filter is_removed (Changes d)) /\
    BreakingChanges (Summary_ d) =
      RemovedEndpoints (Summary_ d) +
      length (filter (fun c => is_modified c && IsBreaking c) (Changes d)) /\
    (forall c, In c (Changes d) -> is_removed c = true ->
       method_absent (getPaths oldSpec) (Path c) (Method c) = false /\
       method_absent (getPaths newSpec) (Path c) (Method c) = true).
Proof.
  intros Hold Hnew.
  assert (Hnd := getPaths_nodup oldSpec).
  assert (Hms := getPaths_methods_nodup oldSpec).
  rewrite Compare_spec. cbv zeta. eexists; split; [reflexivity|].
  cbn [Changes Breaking Summary_ BreakingChanges RemovedEndpoints].
  rewrite removed_changes_only, modified_breaking_only, compare_modified_breaking.
  split; [|split; [|split; [|split]]].
  - assert (Hp : filter (removed_at path method)
                   (compare_added oldSpec newSpec ++ map fst (compare_removed oldSpec newSpec)
                      ++ compare_modified oldSpec newSpec)%list =
                 filter (removed_at path method) (map fst (compare_removed oldSpec newSpec))).
    { rewrite (filter_subsumed (removed_at path method) is_removed).
      - now rewrite removed_changes_only.
      - intros c. unfold removed_at.
        destruct (is_removed c); [reflexivity|discriminate]. }
    rewrite Hp, length_filter_map.
    apply (removed_pairs_unique _ _ path method); auto.
    intros p m. unfold removed_at, removal_entry_at, is_removed, removed_pair. cbn.
    destruct (String.eqb p path), (String.eqb m method); reflexivity.
  - rewrite filter_app, length_app.
    rewrite (filter_all_false _ (map breaking_of _)).
    2: { intros b Hb. apply in_map_iff in Hb as [c [<- Hc]].
         apply compare_modified_shape in Hc as (_ & _ & Hd).
         unfold removal_entry_at, breaking_of. cbn.
         rewrite (proj2 (String.eqb_neq _ _) (op_description_not_removal _ Hd)).
         now rewrite !andb_false_r. }
    rewrite length_filter_map. cbn [length]. rewrite Nat.add_0_r.
    apply (removed_pairs_unique _ _ path method); auto.
    intros p m. unfold removed_at, removal_entry_at, is_removed, removed_pair. cbn.
    destruct (String.eqb p path), (String.eqb m method); reflexivity.
  - rewrite length_map. reflexivity.
  - reflexivity.
  - intros c Hc Hr.
    assert (Hin : In c (filter is_removed
                    (compare_added oldSpec newSpec ++ map fst (compare_removed oldSpec newSpec)
                       ++ compare_modified oldSpec newSpec)%list))
      by (apply filter_In; auto).
    rewrite removed_changes_only in Hin.
    apply in_map_iff in Hin as [[c' b] [<- Hin]].
    apply removed_pairs_shape in Hin as (_ & _ & _ & _ & _ & _ & Habs & ms & op & Hp & Hm).
    split; [|exact Habs]. eapply method_present; eauto.
Qed.

Lemma Compare_reports_removal_witness :
  exists d, Compare seed_old seed_new = Returned d None /\
    length (filter (removed_at "/users/{id}" "delete") (Changes d)) = 1 /\
    length (filter (removal_entry_at "/users/{id}" "delete") (Breaking d)) = 1.
Proof.
  destruct (Compare_reports_removal seed_old seed_new "/users/{id}" "delete")
    as [d [H1 [H2 [H3 _]]]]; [vm_compute; reflexivity|vm_compute; reflexivity|].
  exists d. split; [exact H1|split; assumption].
Defined.

(** ** Request body newly added *)

Lemma tail_descriptions p m oldOp newOp c :
  In c (responseChanges p m oldOp newOp ++ removedParamChanges p m oldOp newOp
          ++ newParamChanges p m oldOp newOp)%list ->
  exists x, Description c = "Response code " ++ x ++ " removed" \/
            Description c = "Parameter '" ++ x ++ "' removed" \/
            Description c = "New required parameter: " ++ x.
Proof.
  rewrite !in_app_iff. intros [H|[H|H]].
  - unfold responseChanges in H. cbv zeta in H.
    apply in_flat_map_if in H as [code [_ ->]]. eexists; left; reflexivity.
  - unfold removedParamChanges in H. apply in_flat_map in H as [[name v] [_ H]].
    destruct (lookup name _); simpl in H; [contradiction|].
    destruct H as [<-|[]]. eexists; right; left; reflexivity.
  - unfold newParamChanges in H. apply in_flat_map in H as [[name v] [_ H]].
    destruct (lookup name _); simpl in H; [contradiction|].
    destruct (isParamRequired v); simpl in H; [|contradiction].
    destruct H as [<-|[]]. eexists; right; right; reflexivity.
Qed.

Lemma field_descriptions p m oldOp newOp c :
  In c (requiredFieldChanges p m oldOp newOp) ->
  exists f, Description c = "New required field: " ++ f.
Proof.
  unfold requiredFieldChanges. cbv zeta. intros H.
  apply in_flat_map_if in H as [f [_ ->]]. eexists; reflexivity.
Qed.

(** C4: when the old operation has no request body and the new one has
    [newBody], the body check emits one breaking [Modified] change
    ["Required request body added"] exactly when [newBody["required"]] is
    the boolean [true], and nothing otherwise; no other check of the
    operation emits a change with that description. *)
Theorem compareOperations_body_added p m oldOp newOp newBody :
  getRequestBody oldOp = None -> getRequestBody newOp = Some newBody ->
  let expected :=
    match as_bool (lookup "required" newBody) with
    | Some true => [mkChange ChangeModified p m "Required request body added" true]
    | _ => []
    end in
  bodyChanges p m oldOp newOp = expected /\
  filter (fun c => String.eqb (Description c) "Required request body added")
    (compareOperations p m oldOp newOp) = expected.
Proof.
  intros Ho Hn expected.
  assert (Hb : bodyChanges p m oldOp newOp = expected).
  { unfold bodyChanges, expected. rewrite Ho, Hn. reflexivity. }
  split; [exact Hb|].
  unfold compareOperations. rewrite filter_app, Hb.
  rewrite (filter_all_false _ (requiredFieldChanges _ _ _ _ ++ _)%list).
  2: { intros c Hc. rewrite in_app_iff in Hc. destruct Hc as [Hc|Hc].
       - apply field_descriptions in Hc as [f ->]. reflexivity.
       - apply tail_descriptions in Hc as [x [->|[->| ->]]]; reflexivity. }
  rewrite app_nil_r. unfold expected.
  destruct (as_bool (lookup "required" newBody)) as [[|]|]; reflexivity.
Qed.

Lemma compareOperations_body_added_witness :
  filter (fun c => String.eqb (Description c) "Required request body added")
    (compareOperations "/users" "post" [] (op_with_body (VBool true)))
  = [mkChange ChangeModified "/users" "post" "Required request body added" true] /\
  filter (fun c => String.eqb (Description c) "Required request body added")
    (compareOperations "/users" "post" [] (op_with_body (VBool false))) = [].
Proof.
  split.
  - exact (proj2 (compareOperations_body_added "/users" "post" []
             (op_with_body (VBool true)) [("required", VBool true)]
             eq_refl eq_refl)).
  - exact (proj2 (compareOperations_body_added "/users" "post" []
             (op_with_body (VBool false)) [("required", VBool false)]
             eq_refl eq_refl)).
Defined.

(** ** Duplicate required fields *)

Lemma eqb_app_prefix s a b : String.eqb (s ++ a) (s ++ b) = String.eqb a b.
Proof.
  induction s as [|ch s IH]; cbn; [reflexivity|].
  rewrite Ascii.eqb_refl. exact IH.
Qed.

(** C10: for a field [f] the old operation does not require, the
    per-operation comparison emits as many ["New required field: " ++ f]
    changes as [f] has occurrences in [getRequiredFields newOp] (one per
    media type listing it), all of them breaking. *)
Theorem compareOperations_required_field_count p m oldOp newOp f :
  contains (getRequiredFields oldOp) f = false ->
  let hits := filter (fun c => String.eqb (Description c) ("New required field: " ++ f))
                (compareOperations p m oldOp newOp) in
  length hits = count_occ string_dec (getRequiredFields newOp) f /\
  Forall (fun c => IsBreaking c = true /\ Type_ c = ChangeModified) hits.
Proof.
  intros Hf hits. split.
  - unfold hits, compareOperations.
    rewrite (filter_app _ (bodyChanges _ _ _ _)), (filter_app _ (requiredFieldChanges _ _ _ _)).
    rewrite (filter_all_false _ (bodyChanges _ _ _ _)).
    2: { intros c Hc. unfold bodyChanges in Hc.
         destruct (getRequestBody oldOp), (getRequestBody newOp) as [nb|];
           try contradiction.
         - destruct Hc as [<-|[]]. reflexivity.
         - destruct (as_bool (lookup "required" nb)) as [[|]|];
             [destruct Hc as [<-|[]]; reflexivity|contradiction..]. }
    rewrite (filter_all_false _ (responseChanges _ _ _ _ ++ _)%list).
    2: { intros c Hc. apply tail_descriptions in Hc as [x [->|[->| ->]]]; reflexivity. }
    rewrite app_nil_r. cbn [app].
    unfold requiredFieldChanges. cbv zeta.
    induction (getRequiredFields newOp) as [|g t IH]; cbn [flat_map count_occ]; [reflexivity|].
    destruct (string_dec g f) as [->|Hne].
    + rewrite Hf. cbn [app filter]. unfold modified. cbn [Description].
      rewrite String.eqb_refl. cbn [length]. f_equal. exact IH.
    + destruct (contains (getRequiredFields oldOp) g); cbn [app filter]; [exact IH|].
      unfold modified. cbn [Description]. rewrite eqb_app_prefix.
      rewrite (proj2 (String.eqb_neq g f) Hne). exact IH.
  - apply Forall_forall. intros c Hc. unfold hits in Hc.
    apply filter_In in Hc as [Hc _].
    apply compareOperations_shape in Hc as (Ht & _ & _ & Hb & _). auto.
Qed.

Lemma compareOperations_required_field_count_witness :
  length (filter (fun c => String.eqb (Description c) ("New required field: " ++ "email"))
            (compareOperations "/users" "post" (one_media ["name"])
               (two_media ["name"; "email"]))) = 2 /\
  exists d, Compare dup_old dup_new = Returned d None /\
    BreakingChanges (Summary_ d) = 2 /\ length (Breaking d) = 2.
Proof.
  split.
  - rewrite (proj1 (compareOperations_required_field_count "/users" "post"
                      (one_media ["name"]) (two_media ["name"; "email"]) "email"
                      ltac:(vm_compute; reflexivity))).
    vm_compute. reflexivity.
  - eexists. split; [vm_compute; reflexivity|]. split; vm_compute; reflexivity.
Defined.

(** ** Migration hints against the rule table *)

Lemma not_new_param_desc d name :
  String.prefix "New required p" d = false ->
  d <> "New required parameter: " ++ name.
Proof. intros H ->. discriminate H. Qed.

(** C6: on every change the per-operation comparison produces, the
    migration hint follows the rule table, except for the
    ["New required parameter: " ++ name] descriptions: [Description[:21]]
    is one character shorter than ["New required parameter"], so that row
    never matches and the hint falls through to the default. *)
Theorem getMigrationGuide_vs_table p m oldOp newOp c :
  In c (compareOperations p m oldOp newOp) ->
  ((forall name, Description c <> "New required parameter: " ++ name) ->
     getMigrationGuide c = Some (spec_migration (Description c))) /\
  (forall name, Description c = "New required parameter: " ++ name ->
     getMigrationGuide c = Some "Review the change and update client code accordingly" /\
     spec_migration (Description c) = "Add the new required parameter to client calls").
Proof.
  intros Hc. apply compareOperations_shape in Hc as (_ & _ & _ & _ & Hd).
  remember (Description c) as d eqn:Hdc. symmetry in Hdc.
  destruct Hd as [| |f|code|name|name].
  - split; [|intros name H; exfalso; eapply not_new_param_desc; [|exact H]; reflexivity].
    intros _. unfold getMigrationGuide. rewrite Hdc. reflexivity.
  - split; [|intros name H; exfalso; eapply not_new_param_desc; [|exact H]; reflexivity].
    intros _. unfold getMigrationGuide. rewrite Hdc. reflexivity.
  - split; [|intros name H; exfalso; eapply not_new_param_desc; [|exact H]; reflexivity].
    intros _. rewrite (mg_field c f Hdc). reflexivity.
  - split; [|intros name H; exfalso; eapply not_new_param_desc; [|exact H]; reflexivity].
    intros _. rewrite (mg_code c code Hdc). reflexivity.
  - split; [|intros name' H; exfalso; eapply not_new_param_desc; [|exact H]; reflexivity].
    intros _. rewrite (mg_param c name Hdc). reflexivity.
  - split.
    + intros H. exfalso. exact (H name eq_refl).
    + intros name' H. split; [exact (mg_new_param c name Hdc)|]. reflexivity.
Qed.

Lemma getMigrationGuide_vs_table_witness :
  Compare param_old param_new =
    Returned (mkDiff "unknown" "unknown"
      [mkChange ChangeModified "/items" "get" "New required parameter: id" true]
      [mkBreakingChange "/items" "get" "New required parameter: id"
         "Review the change and update client code accordingly"]
      (mkSummary 0 0 1 1)) None /\
  getMigrationGuide (mkChange ChangeModified "/items" "get" "New required parameter: id" true)
    = Some "Review the change and update client code accordingly" /\
  spec_migration "New required parameter: id" = "Add the new required parameter to client calls".
Proof.
  split; [vm_compute; reflexivity|].
  exact (proj2 (getMigrationGuide_vs_table "/items" "get" []
           [("parameters", VArr [VObj [("name", VStr "id"); ("required", VBool true)]])]
           (mkChange ChangeModified "/items" "get" "New required parameter: id" true)
           ltac:(vm_compute; left; reflexivity)) "id" eq_refl).
Defined.

(** ** Changelog *)

Lemma str_app_assoc (a b c : string) : (a ++ b) ++ c = a ++ b ++ c.
Proof. induction a as [|ch a IH]; cbn; [reflexivity|now rewrite IH]. Qed.

Lemma str_app_nil_r (s : string) : s ++ "" = s.
Proof. induction s as [|ch s IH]; cbn; [reflexivity|now rewrite IH]. Qed.

Lemma changelog_fold cs v dt a c r f b :
  fold_left changelog_step cs (mkChangelogEntry v dt a c r f b) =
  mkChangelogEntry v dt
    (a ++ map Description (filter is_added cs))
    (c ++ map Description (filter is_modified cs))
    (r ++ map Description (filter is_removed cs)) f
    (b ++ map Description (filter (fun x => negb (is_added x) && IsBreaking x) cs))%list.
Proof.
  revert a c r b. induction cs as [|x t IH]; intros a c r b.
  - cbn. rewrite !app_nil_r. reflexivity.
  - destruct x as [ty p m d br].
    destruct ty, br; cbn [fold_left changelog_step Type_ IsBreaking Description]; rewrite IH;
      cbn [filter is_added is_modified is_removed Type_ IsBreaking negb andb map Description];
      rewrite <- ?app_assoc; reflexivity.
Qed.

Lemma bullets_fold items sb :
  fold_left (fun sb item => sb ++ "- " ++ item ++ nl) items sb = sb ++ bullets items.
Proof.
  revert sb. induction items as [|item t IH]; intros sb; cbn [fold_left bullets].
  - now rewrite str_app_nil_r.
  - rewrite IH, !str_app_assoc. reflexivity.
Qed.

Lemma write_section_app sb title items :
  write_section sb title items = sb ++ section title items.
Proof.
  unfold write_section, section. destruct items as [|item t].
  - cbn. now rewrite str_app_nil_r.
  - cbn [List.length Nat.ltb Nat.leb]. cbv zeta. rewrite bullets_fold, !str_app_assoc.
    reflexivity.
Qed.

(** C8: [Generate] lists the descriptions of the [Added], [Modified] and
    [Removed] changes in the sections "Added", "Changed" and "Removed", each
    in the order of [Changes]; the text is the header followed by the
    breaking, "Added", "Changed" and "Removed" sections, an empty one left
    out.  The breaking section holds the breaking changes that are not
    [Added] only: unlike the [Removed] and [Modified] branches, the
    [ChangeAdded] branch has no [if change.IsBreaking] append, so a breaking
    [Added] change is missing from it. *)
Theorem ChangelogGenerate_sections now diff :
  let e := ChangelogGenerate now diff in
  Added e = map Description (filter is_added (Changes diff)) /\
  Changed e = map Description (filter is_modified (Changes diff)) /\
  Removed e = map Description (filter is_removed (Changes diff)) /\
  BreakingItems e =
    map Description (filter (fun c => negb (is_added c) && IsBreaking c) (Changes diff)) /\
  GenerateChangelog now diff =
    "## [" ++ NewVersion diff ++ "] - " ++ now ++ nl ++ nl
      ++ section breaking_title (BreakingItems e) ++ section "Added" (Added e)
      ++ section "Changed" (Changed e) ++ section "Removed" (Removed e).
Proof.
  intros e.
  assert (He : e = mkChangelogEntry (NewVersion diff) now
                     (map Description (filter is_added (Changes diff)))
                     (map Description (filter is_modified (Changes diff)))
                     (map Description (filter is_removed (Changes diff))) []
                     (map Description (filter (fun c => negb (is_added c) && IsBreaking c)
                                        (Changes diff)))).
  { unfold e, ChangelogGenerate. rewrite changelog_fold. reflexivity. }
  split; [now rewrite He|]. split; [now rewrite He|].
  split; [now rewrite He|]. split; [now rewrite He|].
  unfold GenerateChangelog, ChangelogToMarkdown. fold e. cbv zeta.
  rewrite !write_section_app, !str_app_assoc. rewrite He at 1 2. reflexivity.
Qed.

(** The diff [added_breaking_diff] has one breaking [Added] change: it is
    listed under "Added" and left out of the breaking section. *)
Lemma ChangelogGenerate_sections_witness :
  IsBreaking (mkChange ChangeAdded "/x" "get" "New endpoint: get /x" true) = true /\
  Added (ChangelogGenerate "2024-01-01" added_breaking_diff) = ["New endpoint: get /x"] /\
  BreakingItems (ChangelogGenerate "2024-01-01" added_breaking_diff) = [] /\
  GenerateChangelog "2024-01-01" added_breaking_diff =
    "## [2.0.0] - 2024-01-01" ++ nl ++ nl ++ section "Added" ["New endpoint: get /x"].
Proof.
  pose proof (ChangelogGenerate_sections "2024-01-01" added_breaking_diff) as H.
  cbv zeta in H. destruct H as (HA & HC & HR & HB & HG).
  split; [reflexivity|].
  split; [rewrite HA; vm_compute; reflexivity|].
  split; [rewrite HB; vm_compute; reflexivity|].
  rewrite HG, HB, HA, HC, HR. vm_compute. reflexivity.
Defined.

(** ** Migration guide *)

Lemma migration_fold l f t s :
  fold_left (fun guide breaking =>
               mkMigrationGuide (FromVersion guide) (ToVersion guide)
                 (Steps guide ++ [createMigrationStep breaking])%list)
            l (mkMigrationGuide f t s) =
  mkMigrationGuide f t (s ++ map createMigrationStep l)%list.
Proof.
  revert s. induction l as [|b l IH]; intros s; cbn [fold_left map].
  - now rewrite app_nil_r.
  - rewrite IH. cbn [FromVersion ToVersion Steps]. now rewrite <- app_assoc.
Qed.

Lemma write_step_app sb i step : write_step sb i step = sb ++ write_step "" i step.
Proof.
  unfold write_step. cbv zeta.
  destruct (String.eqb (Before step) ""), (String.eqb (After step) "");
    rewrite !str_app_assoc; reflexivity.
Qed.

Lemma write_steps_app sb i steps : write_steps sb i steps = sb ++ step_blocks i steps.
Proof.
  revert sb i. induction steps as [|step t IH]; intros sb i; cbn [write_steps step_blocks].
  - now rewrite str_app_nil_r.
  - rewrite IH, write_step_app, str_app_assoc. reflexivity.
Qed.

(** C9: the guide has one step per breaking change, in order; its text is
    the header followed either by the no-migration statement, when
    [Breaking] is empty, or by the count and one block per step, the block
    of the [i]-th step (from 0) opening with the heading ["## " ++ (i+1)]. *)
Theorem GenerateMigrationGuide_steps diff :
  let g := MigrationGenerate diff in
  Steps g = map createMigrationStep (Breaking diff) /\
  length (Steps g) = length (Breaking diff) /\
  GenerateMigrationGuide diff =
    "# Migration Guide: " ++ OldVersion diff ++ " → " ++ NewVersion diff ++ nl ++ nl ++
    match Breaking diff with
    | [] => no_migration ++ nl
    | _ => "This guide covers " ++ itoa (length (Breaking diff))
             ++ " breaking change(s) that require updates." ++ nl ++ nl
             ++ step_blocks 0 (Steps g)
    end /\
  (forall i step, exists rest,
     write_step "" i step = "## " ++ itoa (S i) ++ ". " ++ Title step ++ rest).
Proof.
  intros g.
  assert (Hg : g = mkMigrationGuide (OldVersion diff) (NewVersion diff)
                     (map createMigrationStep (Breaking diff))).
  { unfold g, MigrationGenerate. rewrite migration_fold. reflexivity. }
  split; [now rewrite Hg|]. split; [rewrite Hg; apply length_map|]. split.
  - unfold GenerateMigrationGuide, MigrationToMarkdown. fold g. rewrite Hg.
    cbn [Steps FromVersion ToVersion].
    destruct (Breaking diff) as [|b t] eqn:Hb; cbn [map List.length Nat.eqb].
    + rewrite !str_app_assoc. reflexivity.
    + cbv zeta. rewrite write_steps_app, !str_app_assoc, length_map. reflexivity.
  - intros i step. unfold write_step. cbv zeta.
    rewrite Nat.add_1_r.
    destruct (String.eqb (Before step) ""), (String.eqb (After step) "");
      rewrite !str_app_assoc; eexists; reflexivity.
Qed.

(** * Further properties of the code *)

(** ** The result of [Compare], list by list *)

Lemma Compare_returned oldSpec newSpec d :
  Compare oldSpec newSpec = Returned d None ->
  d = mkDiff (getVersion oldSpec) (getVersion newSpec)
        (compare_added oldSpec newSpec ++ map fst (compare_removed oldSpec newSpec)
           ++ compare_modified oldSpec newSpec)%list
        (map snd (compare_removed oldSpec newSpec)
           ++ map breaking_of (compare_modified oldSpec newSpec))%list
        (mkSummary (length (compare_added oldSpec newSpec))
           (length (compare_removed oldSpec newSpec))
           (mod_count (compare_ops oldSpec newSpec))
           (length (compare_removed oldSpec newSpec)
              + length (compare_modified oldSpec newSpec))).
Proof.
  rewrite Compare_spec. cbv zeta. rewrite compare_modified_breaking.
  intros H. injection H as <-. reflexivity.
Qed.

Lemma added_changes_only oldSpec newSpec :
  filter is_added
    (compare_added oldSpec newSpec ++ map fst (compare_removed oldSpec newSpec)
       ++ compare_modified oldSpec newSpec)%list =
  compare_added oldSpec newSpec.
Proof.
  rewrite !filter_app.
  rewrite (filter_all_true _ (compare_added _ _)).
  2: { intros c Hc. apply added_list_shape in Hc as [Ht _].
       unfold is_added. now rewrite Ht. }
  rewrite (filter_all_false _ (map fst _)).
  2: { intros c Hc. apply in_map_iff in Hc as [[c' b] [<- Hin]].
       apply removed_pairs_shape in Hin as [Ht _]. cbn [fst]. unfold is_added.
       now rewrite Ht. }
  rewrite (filter_all_false _ (compare_modified _ _)).
  2: { intros c Hc. apply compare_modified_shape in Hc as [Ht _].
       unfold is_added. now rewrite Ht. }
  now rewrite !app_nil_r.
Qed.

Lemma modified_changes_only oldSpec newSpec :
  filter is_modified
    (compare_added oldSpec newSpec ++ map fst (compare_removed oldSpec newSpec)
       ++ compare_modified oldSpec newSpec)%list =
  compare_modified oldSpec newSpec.
Proof.
  rewrite <- (modified_breaking_only oldSpec newSpec) at 2.
  apply filter_ext_in. intros c Hc.
  rewrite !in_app_iff in Hc. destruct Hc as [Hc|[Hc|Hc]].
  - apply added_list_shape in Hc as [Ht _]. unfold is_modified. now rewrite Ht.
  - apply in_map_iff in Hc as [[c' b] [<- Hin]].
    apply removed_pairs_shape in Hin as [Ht _]. cbn [fst]. unfold is_modified.
    now rewrite Ht.
  - apply compare_modified_shape in Hc as (_ & Hb & _). now rewrite Hb, andb_true_r.
Qed.

Lemma change_breaking_not_added oldSpec newSpec c :
  In c (compare_added oldSpec newSpec ++ map fst (compare_removed oldSpec newSpec)
          ++ compare_modified oldSpec newSpec)%list ->
  IsBreaking c = negb (is_added c).
Proof.
  rewrite !in_app_iff. intros [Hc|[Hc|Hc]].
  - apply added_list_shape in Hc as [Ht Hb]. unfold is_added. now rewrite Ht, Hb.
  - apply in_map_iff in Hc as [[c' b] [<- Hin]].
    apply removed_pairs_shape in Hin as [Ht [Hb _]]. cbn [fst]. unfold is_added.
    now rewrite Ht, Hb.
  - apply compare_modified_shape in Hc as (Ht & Hb & _). unfold is_added.
    now rewrite Ht, Hb.
Qed.

Lemma filter_nonempty {A : Type} (f : A -> bool) l :
  (exists x, In x l /\ f x = true) <-> filter f l <> [].
Proof.
  split.
  - intros [x Hx] Hnil. apply (filter_In f x l) in Hx. now rewrite Hnil in Hx.
  - intros H. destruct (filter f l) as [|x t] eqn:E; [contradiction|].
    exists x. apply filter_In. rewrite E. now left.
Qed.

Lemma mod_count_le qs : mod_count qs <= length (mod_changes qs).
Proof.
  unfold mod_count, mod_changes. induction qs as [|q t IH]; cbn [filter flat_map]; [auto|].
  rewrite length_app. destruct (Nat.ltb_spec 0 (length (quad_changes q))); cbn [length]; lia.
Qed.

Lemma mod_count_zero qs : mod_count qs = 0 <-> mod_changes qs = [].
Proof.
  unfold mod_count, mod_changes. induction qs as [|q t IH]; cbn [filter flat_map]; [tauto|].
  destruct (Nat.ltb_spec 0 (length (quad_changes q))) as [Hlt|Hge]; cbn [length].
  - split; [discriminate|]. intros H. apply (f_equal (@length Change)) in H.
    rewrite length_app in H. cbn in H. lia.
  - destruct (quad_changes q); [|cbn in Hge; lia]. exact IH.
Qed.

(** X1: after [Compare], [HasBreakingChanges] holds exactly when the
    breaking list is not empty, and exactly when some change is breaking. *)
Theorem Compare_HasBreakingChanges oldSpec newSpec d :
  Compare oldSpec newSpec = Returned d None ->
  (HasBreakingChanges d = true <-> Breaking d <> []) /\
  (HasBreakingChanges d = true <-> exists c, In c (Changes d) /\ IsBreaking c = true).
Proof.
  intros H. apply Compare_returned in H. subst d.
  unfold HasBreakingChanges. cbn [Changes Breaking Summary_ BreakingChanges].
  rewrite Nat.ltb_lt. split.
  - split.
    + intros Hlt Hnil. apply (f_equal (@length BreakingChange)) in Hnil.
      rewrite length_app, !length_map in Hnil. cbn in Hnil. lia.
    + intros Hne. destruct (compare_removed oldSpec newSpec), (compare_modified oldSpec newSpec);
        cbn [length]; [contradiction|lia..].
  - rewrite filter_nonempty, compare_changes_breaking. split.
    + intros Hlt Hnil. apply (f_equal (@length Change)) in Hnil.
      rewrite length_app, length_map in Hnil. cbn in Hnil. lia.
    + intros Hne. destruct (compare_removed oldSpec newSpec), (compare_modified oldSpec newSpec);
        cbn [length]; [contradiction|lia..].
Qed.

Lemma Compare_HasBreakingChanges_witness :
  exists d, Compare seed_old seed_new = Returned d None /\
    HasBreakingChanges d = true /\ Breaking d <> [].
Proof.
  eexists. split; [vm_compute; reflexivity|].
  split; [vm_compute; reflexivity|].
  apply (proj1 (Compare_HasBreakingChanges seed_old seed_new _ ltac:(vm_compute; reflexivity))).
  vm_compute. reflexivity.
Defined.

(** X2: the counters of [Compare] count changes: [AddedEndpoints] and
    [RemovedEndpoints] are the numbers of [Added] and [Removed] changes;
    [ModifiedEndpoints] counts operations, at most the number of
    [Modified] changes, and is zero exactly when there is none. *)
Theorem Compare_counters oldSpec newSpec d :
  Compare oldSpec newSpec = Returned d None ->
  AddedEndpoints (Summary_ d) = length (filter is_added (Changes d)) /\
  RemovedEndpoints (Summary_ d) = length (filter is_removed (Changes d)) /\
  ModifiedEndpoints (Summary_ d) <= length (filter is_modified (Changes d)) /\
  (ModifiedEndpoints (Summary_ d) = 0 <-> filter is_modified (Changes d) = []).
Proof.
  intros H. apply Compare_returned in H. subst d.
  cbn [Changes Summary_ AddedEndpoints RemovedEndpoints ModifiedEndpoints].
  rewrite added_changes_only, removed_changes_only, modified_changes_only, length_map.
  split; [reflexivity|]. split; [reflexivity|].
  split; [apply mod_count_le|apply mod_count_zero].
Qed.

Lemma Compare_counters_witness :
  exists d, Compare seed_old seed_new = Returned d None /\
    AddedEndpoints (Summary_ d) = length (filter is_added (Changes d)) /\
    ModifiedEndpoints (Summary_ d) <= length (filter is_modified (Changes d)).
Proof.
  eexists. split; [vm_compute; reflexivity|].
  destruct (Compare_counters seed_old seed_new _ ltac:(vm_compute; reflexivity))
    as (H1 & _ & H3 & _).
  split; assumption.
Defined.

(** X3: in every diff [Compare] returns, a change is breaking exactly when
    it is not an [Added] change. *)
Theorem Compare_breaking_iff_not_added oldSpec newSpec d :
  Compare oldSpec newSpec = Returned d None ->
  forall c, In c (Changes d) -> IsBreaking c = negb (is_added c).
Proof.
  intros H. apply Compare_returned in H. subst d. cbn [Changes].
  apply change_breaking_not_added.
Qed.

Lemma Compare_breaking_iff_not_added_witness :
  exists d, Compare seed_old seed_new = Returned d None /\
    Forall (fun c => IsBreaking c = negb (is_added c)) (Changes d).
Proof.
  eexists. split; [vm_compute; reflexivity|].
  apply Forall_forall.
  exact (Compare_breaking_iff_not_added seed_old seed_new _ ltac:(vm_compute; reflexivity)).
Defined.

(** ** Comparing in both directions *)

Lemma added_removed_swap oldPaths newPaths :
  map (fun c => (Path c, Method c)) (added_list oldPaths newPaths) =
  map (fun c => (Path c, Method c)) (map fst (removed_pairs newPaths oldPaths)).
Proof.
  unfold added_list, removed_pairs.
  induction newPaths as [|[path methods] t IH]; cbn [flat_map]; [reflexivity|].
  rewrite !map_app, IH. f_equal.
  unfold added_for, removed_for.
  induction methods as [|[method op] ms IHm]; cbn [flat_map]; [reflexivity|].
  rewrite !map_app, IHm. f_equal.
  destruct (method_absent oldPaths path method); reflexivity.
Qed.

(** X4: the endpoints [Compare a b] reports as added are the endpoints
    [Compare b a] reports as removed, as (path, method) pairs up to order
    (each run iterates its maps in an order of its own); so
    [AddedEndpoints] of the one is [RemovedEndpoints] of the other. *)
Theorem Compare_added_removed_swap a b d1 d2 :
  Compare a b = Returned d1 None -> Compare b a = Returned d2 None ->
  Permutation (map (fun c => (Path c, Method c)) (filter is_added (Changes d1)))
              (map (fun c => (Path c, Method c)) (filter is_removed (Changes d2))) /\
  AddedEndpoints (Summary_ d1) = RemovedEndpoints (Summary_ d2).
Proof.
  intros H1 H2. apply Compare_returned in H1, H2. subst d1 d2.
  cbn [Changes Summary_ AddedEndpoints RemovedEndpoints].
  rewrite added_changes_only, removed_changes_only.
  assert (Hs := added_removed_swap (getPaths a) (getPaths b)).
  split; [apply Permutation_refl'; exact Hs|].
  apply (f_equal (@length (string * string))) in Hs. rewrite !length_map in Hs.
  exact Hs.
Qed.

Lemma Compare_added_removed_swap_witness :
  exists d1 d2, Compare seed_old seed_new = Returned d1 None /\
    Compare seed_new seed_old = Returned d2 None /\
    AddedEndpoints (Summary_ d1) = RemovedEndpoints (Summary_ d2).
Proof.
  eexists. eexists. split; [vm_compute; reflexivity|]. split; [vm_compute; reflexivity|].
  exact (proj2 (Compare_added_removed_swap seed_old seed_new _ _
                  ltac:(vm_compute; reflexivity) ltac:(vm_compute; reflexivity))).
Defined.

(** ** Reports built from a [Compare] result *)

(** X5: the changelog of a diff [Compare] returns lists every breaking
    change, in order, under the breaking section, and so has as many
    breaking items as [Summary.BreakingChanges]. *)
Theorem Compare_changelog_breaking oldSpec newSpec d now :
  Compare oldSpec newSpec = Returned d None ->
  BreakingItems (ChangelogGenerate now d) = map Description (filter IsBreaking (Changes d)) /\
  length (BreakingItems (ChangelogGenerate now d)) = BreakingChanges (Summary_ d).
Proof.
  intros H. apply Compare_returned in H. subst d.
  unfold ChangelogGenerate. rewrite changelog_fold.
  cbn [BreakingItems Changes Summary_ BreakingChanges app].
  assert (Hf : filter (fun x => negb (is_added x) && IsBreaking x)
                 (compare_added oldSpec newSpec ++ map fst (compare_removed oldSpec newSpec)
                    ++ compare_modified oldSpec newSpec)%list =
               filter IsBreaking
                 (compare_added oldSpec newSpec ++ map fst (compare_removed oldSpec newSpec)
                    ++ compare_modified oldSpec newSpec)%list).
  { apply filter_ext_in. intros c Hc.
    rewrite (change_breaking_not_added _ _ _ Hc). now rewrite andb_diag. }
  rewrite Hf. split; [reflexivity|].
  rewrite compare_changes_breaking, length_map, length_app, length_map. reflexivity.
Qed.

Lemma Compare_changelog_breaking_witness :
  exists d, Compare seed_old seed_new = Returned d None /\
    length (BreakingItems (ChangelogGenerate "2024-01-01" d)) = BreakingChanges (Summary_ d).
Proof.
  eexists. split; [vm_compute; reflexivity|].
  exact (proj2 (Compare_changelog_breaking seed_old seed_new _ "2024-01-01"
                  ltac:(vm_compute; reflexivity))).
Defined.

(** X6: the migration guide of a diff [Compare] returns has exactly
    [Summary.BreakingChanges] steps. *)
Theorem Compare_migration_steps oldSpec newSpec d :
  Compare oldSpec newSpec = Returned d None ->
  length (Steps (MigrationGenerate d)) = BreakingChanges (Summary_ d).
Proof.
  intros H. apply Compare_returned in H. subst d.
  unfold MigrationGenerate. rewrite migration_fold.
  cbn [Steps Breaking Summary_ BreakingChanges app].
  rewrite length_map, length_app, !length_map. reflexivity.
Qed.

Lemma Compare_migration_steps_witness :
  exists d, Compare seed_old seed_new = Returned d None /\
    length (Steps (MigrationGenerate d)) = BreakingChanges (Summary_ d).
Proof.
  eexists. split; [vm_compute; reflexivity|].
  exact (Compare_migration_steps seed_old seed_new _ ltac:(vm_compute; reflexivity)).
Defined.

(** ** Backward-compatible additions and missing [paths] *)

Lemma mod_ops_in oldPaths newPaths path method oldOp newOp :
  In (path, method, oldOp, newOp) (mod_ops oldPaths newPaths) ->
  exists methods newMethods,
    In (path, methods) oldPaths /\ In (method, oldOp) methods /\
    lookup path newPaths = Some newMethods /\ lookup method newMethods = Some newOp.
Proof.
  unfold mod_ops. intros H.
  apply in_flat_map in H as [[p oldMethods] [Hp H]].
  destruct (lookup p newPaths) as [newMethods|] eqn:Hn; [|contradiction].
  unfold mod_ops_for in H. apply in_flat_map in H as [[m o] [Hm H]].
  destruct (lookup m newMethods) as [n|] eqn:Hl; [|contradiction].
  destruct H as [H|[]]. injection H as <- <- <- <-. eauto 7.
Qed.

(** X7: when every operation of the old document is still in the new one,
    at the same path and method and unchanged, [Compare] reports only
    added endpoints: nothing removed, nothing modified, nothing breaking. *)
Theorem Compare_additive oldSpec newSpec :
  (forall path methods method op,
     In (path, methods) (getPaths oldSpec) -> In (method, op) methods ->
     exists newMethods, lookup path (getPaths newSpec) = Some newMethods /\
                        lookup method newMethods = Some op) ->
  exists d, Compare oldSpec newSpec = Returned d None /\
    Forall (fun c => Type_ c = ChangeAdded) (Changes d) /\ Breaking d = [] /\
    RemovedEndpoints (Summary_ d) = 0 /\ ModifiedEndpoints (Summary_ d) = 0 /\
    BreakingChanges (Summary_ d) = 0.
Proof.
  intros Hsub.
  assert (HR : compare_removed oldSpec newSpec = []).
  { unfold compare_removed, removed_pairs. apply flat_map_all_nil.
    intros [path methods] Hp. unfold removed_for. apply flat_map_all_nil.
    intros [method op] Hm. destruct (Hsub _ _ _ _ Hp Hm) as [nm [Hn Hl]].
    unfold method_absent. now rewrite Hn, Hl. }
  assert (HM : compare_modified oldSpec newSpec = []).
  { unfold compare_modified, mod_changes. apply flat_map_all_nil.
    intros [[[path method] oldOp] newOp] Hq.
    apply mod_ops_in in Hq as (ms & nm & Hp & Hm & Hn & Hl).
    destruct (Hsub _ _ _ _ Hp Hm) as [nm' [Hn' Hl']].
    rewrite Hn in Hn'. injection Hn' as <-. rewrite Hl in Hl'. injection Hl' as ->.
    apply compareOperations_self. }
  exists (mkDiff (getVersion oldSpec) (getVersion newSpec)
       (compare_added oldSpec newSpec ++ map fst (compare_removed oldSpec newSpec)
          ++ compare_modified oldSpec newSpec)%list
       (map snd (compare_removed oldSpec newSpec)
          ++ map breaking_of (compare_modified oldSpec newSpec))%list
       (mkSummary (length (compare_added oldSpec newSpec))
          (length (compare_removed oldSpec newSpec))
          (mod_count (compare_ops oldSpec newSpec))
          (length (compare_removed oldSpec newSpec)
             + length (compare_modified oldSpec newSpec)))).
  split.
  { rewrite Compare_spec. cbv zeta. now rewrite compare_modified_breaking. }
  cbn [Changes Breaking Summary_ RemovedEndpoints ModifiedEndpoints BreakingChanges].
  rewrite HR, HM. cbn [map app length].
  split; [|split; [reflexivity|split; [reflexivity|split; [|reflexivity]]]].
  - rewrite app_nil_r. apply Forall_forall. intros c Hc.
    now apply added_list_shape in Hc.
  - apply mod_count_zero. exact HM.
Qed.

Lemma Compare_additive_witness :
  exists d, Compare users_get seed_new = Returned d None /\ Breaking d = [].
Proof.
  destruct (Compare_additive users_get seed_new) as (d & H1 & _ & H2 & _).
  - intros path methods method op Hp Hm. vm_compute in Hp.
    destruct Hp as [Hp|[]]. injection Hp as <- <-.
    destruct Hm as [Hm|[]]. injection Hm as <- <-.
    eexists. split; vm_compute; reflexivity.
  - exists d. split; assumption.
Defined.

Lemma getPaths_no_paths spec : as_obj (lookup "paths" spec) = None -> getPaths spec = [].
Proof. intros H. unfold getPaths. now rewrite H. Qed.

Lemma endpoints_added paths :
  map (fun c => (Type_ c, Path c, Method c)) (added_list [] paths) =
  endpoints ChangeAdded paths.
Proof.
  unfold added_list, endpoints.
  induction paths as [|[path methods] t IH]; cbn [flat_map]; [reflexivity|].
  rewrite map_app, IH. f_equal. clear IH.
  unfold added_for. induction methods as [|[method op] ms IHm]; [reflexivity|].
  simpl in *. f_equal. exact IHm.
Qed.

Lemma endpoints_removed paths :
  map (fun c => (Type_ c, Path c, Method c)) (map fst (removed_pairs paths [])) =
  endpoints ChangeRemoved paths.
Proof.
  unfold removed_pairs, endpoints.
  induction paths as [|[path methods] t IH]; cbn [flat_map]; [reflexivity|].
  rewrite !map_app, IH. f_equal. clear IH.
  unfold removed_for. induction methods as [|[method op] ms IHm]; [reflexivity|].
  simpl in *. f_equal. exact IHm.
Qed.

(** X8: when the old document has no [paths] object, [Compare] reports
    every operation of the new document as added, in order, and nothing
    else. *)
Theorem Compare_old_without_paths oldSpec newSpec :
  as_obj (lookup "paths" oldSpec) = None ->
  exists d, Compare oldSpec newSpec = Returned d None /\
    map (fun c => (Type_ c, Path c, Method c)) (Changes d) =
      endpoints ChangeAdded (getPaths newSpec) /\
    Breaking d = [] /\
    Summary_ d = mkSummary (length (Changes d)) 0 0 0.
Proof.
  intros Hno. eexists. split; [rewrite Compare_spec; reflexivity|].
  cbv zeta. cbn [Changes Breaking Summary_].
  unfold compare_added, compare_removed, compare_modified, compare_ops.
  rewrite (getPaths_no_paths oldSpec Hno). cbn [removed_pairs mod_ops flat_map map app].
  unfold mod_changes, mod_count. cbn [flat_map filter length app].
  rewrite !app_nil_r. split; [|split; reflexivity].
  apply endpoints_added.
Qed.

Lemma Compare_old_without_paths_witness :
  exists d, Compare [] seed_new = Returned d None /\ Breaking d = [].
Proof.
  destruct (Compare_old_without_paths [] seed_new eq_refl) as (d & H1 & _ & H2 & _).
  exists d. split; assumption.
Defined.

(** X9: when the new document has no [paths] object, [Compare] reports
    every operation of the old document as removed and breaking, in
    order, with one breaking change each, and nothing else. *)
Theorem Compare_new_without_paths oldSpec newSpec :
  as_obj (lookup "paths" newSpec) = None ->
  exists d, Compare oldSpec newSpec = Returned d None /\
    map (fun c => (Type_ c, Path c, Method c)) (Changes d) =
      endpoints ChangeRemoved (getPaths oldSpec) /\
    Forall (fun c => IsBreaking c = true) (Changes d) /\
    length (Breaking d) = length (Changes d) /\
    Summary_ d = mkSummary 0 (length (Changes d)) 0 (length (Changes d)).
Proof.
  intros Hno. eexists. split; [rewrite Compare_spec; reflexivity|].
  cbv zeta. cbn [Changes Breaking Summary_].
  unfold compare_added, compare_removed, compare_modified, compare_ops.
  rewrite (getPaths_no_paths newSpec Hno).
  assert (HA : added_list (getPaths oldSpec) [] = []) by reflexivity.
  assert (HM : mod_ops (getPaths oldSpec) [] = []).
  { unfold mod_ops. apply flat_map_all_nil. intros [p ms] _. reflexivity. }
  rewrite HA, HM. unfold mod_changes, mod_count. cbn [flat_map filter length app map].
  rewrite !app_nil_r, !length_map, Nat.add_0_r.
  split; [|split; [|split; reflexivity]].
  - apply endpoints_removed.
  - apply Forall_forall. intros c Hc. apply in_map_iff in Hc as [[c' b] [<- Hin]].
    now apply removed_pairs_shape in Hin.
Qed.

Lemma Compare_new_without_paths_witness :
  exists d, Compare seed_old [] = Returned d None /\
    length (Breaking d) = length (Changes d).
Proof.
  destruct (Compare_new_without_paths seed_old [] eq_refl) as (d & H1 & _ & _ & H2 & _).
  exists d. split; assumption.
Defined.

(** ** Strings: cancellation and substrings *)

Lemma str_app_inv_l (s a b : string) : s ++ a = s ++ b -> a = b.
Proof. induction s as [|ch s IH]; cbn; [auto|]. intros H. injection H. exact IH. Qed.

Lemma str_app_inv_r (a b s : string) : a ++ s = b ++ s -> a = b.
Proof.
  revert b. induction a as [|ch a IH]; intros [|ch' b]; cbn; auto.
  - intros H. apply (f_equal String.length) in H. cbn in H.
    rewrite str_length_app in H. lia.
  - intros H. apply (f_equal String.length) in H. cbn in H.
    rewrite str_length_app in H. lia.
  - intros H. injection H as -> H. f_equal. now apply IH.
Qed.

Lemma str_neq_prefix (pre s1 s2 : string) :
  String.prefix pre s1 = true -> String.prefix pre s2 = false -> s1 <> s2.
Proof. intros H1 H2 ->. congruence. Qed.

Lemma str_neq_prefix_r (pre s1 s2 : string) :
  String.prefix pre s2 = true -> String.prefix pre s1 = false -> s1 <> s2.
Proof. intros H1 H2 ->. congruence. Qed.

(** [s <> t] where [t] starts with [pre] and [s] computes to a string that
    does not ([String.prefix] recurses on its second argument: [pre] must
    stop before a variable part of [t]). *)
Ltac neq_by pre := apply (str_neq_prefix_r pre); reflexivity.

Lemma eqb_app_suffix (a b s : string) : String.eqb (a ++ s) (b ++ s) = String.eqb a b.
Proof.
  destruct (String.eqb_spec a b) as [->|Hne].
  - apply String.eqb_refl.
  - apply String.eqb_neq. intros H. apply Hne. exact (str_app_inv_r _ _ _ H).
Qed.

Lemma str_contains_app_r (a b sub : string) :
  str_contains b sub = true -> str_contains (a ++ b) sub = true.
Proof.
  induction a as [|ch a IH]; cbn; [auto|].
  intros H. rewrite (IH H). apply orb_true_r.
Qed.

(** ** Parameters *)

Lemma getParameters_fold op :
  getParameters op =
  match as_arr (lookup "parameters" op) with
  | Some params => fold_left param_step params []
  | None => []
  end.
Proof. reflexivity. Qed.

Lemma lookup_assoc_insert_same {A : Type} k (v : A) m : lookup k (assoc_insert k v m) = Some v.
Proof.
  induction m as [|[k' v'] t IH]; cbn; [now rewrite String.eqb_refl|].
  destruct (String.eqb_spec k k') as [->|Hne]; cbn.
  - now rewrite String.eqb_refl.
  - apply String.eqb_neq in Hne. now rewrite Hne.
Qed.

Lemma lookup_assoc_insert_other {A : Type} k k' (v : A) m :
  k' <> k -> lookup k (assoc_insert k' v m) = lookup k m.
Proof.
  intros Hne. apply String.eqb_neq in Hne.
  induction m as [|[k0 v0] t IH]; cbn.
  - rewrite String.eqb_sym, Hne. reflexivity.
  - destruct (String.eqb k' k0) eqn:E; cbn.
    + apply String.eqb_eq in E. subst k0. rewrite String.eqb_sym, Hne. reflexivity.
    + destruct (String.eqb k k0); [reflexivity|exact IH].
Qed.

Lemma lookup_param_step k r p :
  lookup k (param_step r p) =
  if named k p then match p with VObj param => Some param | _ => None end
  else lookup k r.
Proof.
  destruct p as [| | | | |param]; try reflexivity; cbn [param_step named].
  all: try reflexivity.
  destruct (as_str (lookup "name" param)) as [name|]; [|reflexivity].
  destruct (String.eqb_spec name k) as [->|Hne].
  - apply lookup_assoc_insert_same.
  - now apply lookup_assoc_insert_other.
Qed.

Lemma fold_param_unnamed k post acc :
  Forall (fun v => named k v = false) post ->
  lookup k (fold_left param_step post acc) = lookup k acc.
Proof.
  revert acc. induction post as [|x t IH]; intros acc H; cbn [fold_left]; [reflexivity|].
  inversion_clear H as [|? ? Hx Ht]. rewrite IH by exact Ht.
  rewrite lookup_param_step, Hx. reflexivity.
Qed.

(** X10: [getParameters] keeps, for each name, the LAST object of the
    [parameters] array with that string [name]; elements that are not
    objects or have no string [name] are skipped. *)
Theorem getParameters_last_wins op name param :
  lookup name (getParameters op) = Some param <->
  exists pre post,
    as_arr (lookup "parameters" op) = Some (pre ++ VObj param :: post)%list /\
    as_str (lookup "name" param) = Some name /\
    Forall (fun v => named name v = false) post.
Proof.
  rewrite getParameters_fold. split.
  - destruct (as_arr (lookup "parameters" op)) as [params|]; [|discriminate].
    revert param. induction params as [|x l IH] using rev_ind; intros param H;
      [discriminate|].
    rewrite fold_left_app in H. cbn [fold_left] in H.
    rewrite lookup_param_step in H.
    destruct (named name x) eqn:Hx.
    + destruct x as [| | | | |q]; try discriminate. injection H as ->.
      exists l, []. split; [reflexivity|]. split; [|constructor].
      cbn [named] in Hx. destruct (as_str (lookup "name" param)) as [n|]; [|discriminate].
      apply String.eqb_eq in Hx. now subst.
    + destruct (IH param H) as (pre & post & Hl & Hn & Hpost).
      injection Hl as ->. exists pre, (post ++ [x])%list.
      split; [now rewrite <- app_assoc|]. split; [exact Hn|].
      apply Forall_app. split; [exact Hpost|]. now constructor.
  - intros (pre & post & Hp & Hn & Hpost). rewrite Hp.
    rewrite fold_left_app. cbn [fold_left].
    rewrite fold_param_unnamed by exact Hpost.
    rewrite lookup_param_step. cbn [named]. rewrite Hn, String.eqb_refl. reflexivity.
Qed.

Lemma getParameters_last_wins_witness :
  lookup "id" (getParameters two_ids) = Some [("name", VStr "id"); ("required", VBool true)].
Proof.
  apply (proj2 (getParameters_last_wins two_ids "id" _)).
  exists [VObj [("name", VStr "id"); ("in", VStr "query")]], [].
  split; [reflexivity|]. split; [reflexivity|constructor].
Defined.

(** X11: parameters are compared by name only: a parameter whose name is
    in both operations is never reported, neither as removed nor as a new
    required parameter, whatever its other fields (its [required] flag
    included) become. *)
Theorem compareOperations_param_by_name p m oldOp newOp name :
  lookup name (getParameters oldOp) <> None ->
  lookup name (getParameters newOp) <> None ->
  forall c, In c (compareOperations p m oldOp newOp) ->
  Description c <> "Parameter '" ++ name ++ "' removed" /\
  Description c <> "New required parameter: " ++ name.
Proof.
  intros Ho Hn c Hc. unfold compareOperations in Hc. rewrite !in_app_iff in Hc.
  destruct Hc as [Hc|[Hc|[Hc|[Hc|Hc]]]].
  - unfold bodyChanges in Hc.
    destruct (getRequestBody oldOp), (getRequestBody newOp) as [nb|]; try contradiction.
    + destruct Hc as [<-|[]].
      split; [neq_by "Parameter "|neq_by "New required parameter:"].
    + destruct (as_bool (lookup "required" nb)) as [[|]|]; try contradiction.
      destruct Hc as [<-|[]].
      split; [neq_by "Parameter "|neq_by "New required parameter:"].
  - apply field_descriptions in Hc as [f ->].
    split; [neq_by "Parameter "|neq_by "New required parameter:"].
  - unfold responseChanges in Hc. cbv zeta in Hc.
    apply in_flat_map_if in Hc as [code [_ ->]].
    split; [neq_by "Parameter "|neq_by "New required parameter:"].
  - unfold removedParamChanges in Hc. apply in_flat_map in Hc as [[n v] [Hin Hc]].
    destruct (lookup n (getParameters newOp)) eqn:Hl; cbn in Hc; [contradiction|].
    destruct Hc as [<-|[]]. unfold modified. cbn [Description]. split.
    + intros Heq. apply (str_app_inv_l "Parameter '") in Heq.
      apply (str_app_inv_r _ _ "' removed") in Heq. subst n. contradiction.
    + neq_by "New required parameter:".
  - unfold newParamChanges in Hc. apply in_flat_map in Hc as [[n v] [Hin Hc]].
    destruct (lookup n (getParameters oldOp)) eqn:Hl; cbn in Hc; [contradiction|].
    destruct (isParamRequired v); cbn in Hc; [|contradiction].
    destruct Hc as [<-|[]]. unfold modified. cbn [Description]. split.
    + neq_by "Parameter ".
    + intros Heq. apply (str_app_inv_l "New required parameter: ") in Heq.
      subst n. contradiction.
Qed.

Lemma compareOperations_param_by_name_witness :
  Forall (fun c => Description c <> "New required parameter: id")
    (compareOperations "/items" "get" (id_param false) (id_param true)).
Proof.
  apply Forall_forall. intros c Hc.
  exact (proj2 (compareOperations_param_by_name "/items" "get" (id_param false) (id_param true)
                  "id" ltac:(vm_compute; discriminate) ltac:(vm_compute; discriminate) c Hc)).
Defined.

(** ** Response codes and required fields *)

Lemma count_flat_map_if {A : Type} (g : A -> bool) (mk : A -> Change)
  (P : Change -> bool) (q : A -> bool) (l : list A) :
  (forall x, P (mk x) = q x) ->
  length (filter P (flat_map (fun x => if g x then [] else [mk x]) l)) =
  length (filter (fun x => negb (g x) && q x) l).
Proof.
  intros H. induction l as [|x t IH]; cbn [flat_map filter]; [reflexivity|].
  rewrite filter_app, length_app, IH.
  destruct (g x); cbn [filter app negb andb]; [reflexivity|].
  rewrite H. destruct (q x); reflexivity.
Qed.

Lemma count_nodup (l : list string) x :
  NoDup l -> length (filter (fun y => String.eqb y x) l) = if contains l x then 1 else 0.
Proof.
  induction l as [|a t IH]; intros Hnd; [reflexivity|].
  inversion_clear Hnd as [|? ? Hnotin Hnd'].
  unfold contains in *. cbn [filter existsb].
  destruct (String.eqb_spec a x) as [->|Hne]; cbn [length orb].
  - rewrite IH by exact Hnd'.
    destruct (existsb (fun s => String.eqb s x) t) eqn:E; [|reflexivity].
    apply existsb_exists in E as [y [Hy Hyx]]. apply String.eqb_eq in Hyx. subst y.
    contradiction.
  - exact (IH Hnd').
Qed.

Lemma getResponseCodes_nodup op : NoDup (getResponseCodes op).
Proof.
  unfold getResponseCodes. destruct (as_obj (lookup "responses" op)); [|constructor].
  apply entries_nodup.
Qed.

(** X12: the per-operation comparison reports ["Response code " ++ code ++
    " removed"] exactly once when [code] is a key of the old operation's
    [responses] object and not of the new one's, and never otherwise. *)
Theorem compareOperations_response_removed p m oldOp newOp code :
  length (filter (fun c => String.eqb (Description c) ("Response code " ++ code ++ " removed"))
            (compareOperations p m oldOp newOp)) =
  if contains (getResponseCodes oldOp) code && negb (contains (getResponseCodes newOp) code)
  then 1 else 0.
Proof.
  unfold compareOperations. rewrite !filter_app, !length_app.
  rewrite (filter_all_false _ (bodyChanges _ _ _ _)).
  2: { intros c Hc. unfold bodyChanges in Hc.
       destruct (getRequestBody oldOp), (getRequestBody newOp) as [nb|]; try contradiction.
       - destruct Hc as [<-|[]]. reflexivity.
       - destruct (as_bool (lookup "required" nb)) as [[|]|]; try contradiction.
         destruct Hc as [<-|[]]. reflexivity. }
  rewrite (filter_all_false _ (requiredFieldChanges _ _ _ _)).
  2: { intros c Hc. apply field_descriptions in Hc as [f ->]. reflexivity. }
  rewrite (filter_all_false _ (removedParamChanges _ _ _ _)).
  2: { intros c Hc. unfold removedParamChanges in Hc.
       apply in_flat_map in Hc as [[n v] [_ Hc]].
       destruct (lookup n _); cbn in Hc; [contradiction|].
       destruct Hc as [<-|[]]. reflexivity. }
  rewrite (filter_all_false _ (newParamChanges _ _ _ _)).
  2: { intros c Hc. unfold newParamChanges in Hc.
       apply in_flat_map in Hc as [[n v] [_ Hc]].
       destruct (lookup n _); cbn in Hc; [contradiction|].
       destruct (isParamRequired v); cbn in Hc; [|contradiction].
       destruct Hc as [<-|[]]. reflexivity. }
  cbn [length]. rewrite Nat.add_0_l, !Nat.add_0_r.
  unfold responseChanges. cbv zeta.
  rewrite (count_flat_map_if _ _ _ (fun x => String.eqb x code)).
  2: { intros x.
       change (String.eqb ("Response code " ++ x ++ " removed")
                          ("Response code " ++ code ++ " removed") = String.eqb x code).
       rewrite eqb_app_prefix. apply eqb_app_suffix. }
  rewrite (filter_ext (fun x => negb (contains (getResponseCodes newOp) x) && String.eqb x code)
             (fun x => negb (contains (getResponseCodes newOp) code) && String.eqb x code)).
  2: { intros x. destruct (String.eqb_spec x code) as [->|_]; [reflexivity|].
       now rewrite !andb_false_r. }
  destruct (contains (getResponseCodes newOp) code); cbn [negb andb].
  - rewrite filter_all_false; [|reflexivity]. now rewrite andb_false_r.
  - rewrite count_nodup by apply getResponseCodes_nodup. now rewrite andb_true_r.
Qed.

Lemma compareOperations_response_removed_witness :
  length (filter (fun c => String.eqb (Description c) ("Response code " ++ "404" ++ " removed"))
            (compareOperations "/users" "get" (with_responses ["200"; "404"])
               (with_responses ["200"]))) = 1.
Proof.
  rewrite compareOperations_response_removed. vm_compute. reflexivity.
Defined.

(** X13: a field the old operation already requires is never reported as a
    new required field, however many media types of the new body list it. *)
Theorem compareOperations_field_already_required p m oldOp newOp f :
  contains (getRequiredFields oldOp) f = true ->
  forall c, In c (compareOperations p m oldOp newOp) ->
  Description c <> "New required field: " ++ f.
Proof.
  intros Hf c Hc. unfold compareOperations in Hc. rewrite !in_app_iff in Hc.
  destruct Hc as [Hc|[Hc|Hc]].
  - unfold bodyChanges in Hc.
    destruct (getRequestBody oldOp), (getRequestBody newOp) as [nb|]; try contradiction.
    + destruct Hc as [<-|[]]. neq_by "New required field:".
    + destruct (as_bool (lookup "required" nb)) as [[|]|]; try contradiction.
      destruct Hc as [<-|[]]. neq_by "New required field:".
  - unfold requiredFieldChanges in Hc. cbv zeta in Hc.
    apply in_flat_map in Hc as [g [_ Hc]].
    destruct (contains (getRequiredFields oldOp) g) eqn:Hg; cbn in Hc; [contradiction|].
    destruct Hc as [<-|[]]. unfold modified. cbn [Description].
    intros Heq. apply (str_app_inv_l "New required field: ") in Heq. subst g.
    congruence.
  - assert (Hc' : In c (responseChanges p m oldOp newOp ++ removedParamChanges p m oldOp newOp
                         ++ newParamChanges p m oldOp newOp)%list)
      by (rewrite !in_app_iff; exact Hc).
    apply tail_descriptions in Hc' as [x [Hd|[Hd|Hd]]]; rewrite Hd;
      neq_by "New required field:".
Qed.

Lemma compareOperations_field_already_required_witness :
  Forall (fun c => Description c <> "New required field: " ++ "name")
    (compareOperations "/users" "post" (one_media ["name"]) (two_media ["name"; "email"])).
Proof.
  apply Forall_forall.
  exact (compareOperations_field_already_required "/users" "post" (one_media ["name"])
           (two_media ["name"; "email"]) "name" ltac:(vm_compute; reflexivity)).
Defined.

(** ** Migration steps of a computed diff *)

Lemma createMigrationStep_title br :
  (str_contains (Reason br) "removed" || str_contains (Reason br) "required"
   || negb (str_contains (Reason br) "parameter")) = true ->
  let step := createMigrationStep br in
  Title step = "Handle removed endpoint: " ++ StepMethod step ++ " " ++ Endpoint step \/
  Title step = "Add required field for: " ++ StepMethod step ++ " " ++ Endpoint step \/
  Title step = "Update: " ++ StepMethod step ++ " " ++ Endpoint step.
Proof.
  unfold createMigrationStep. cbv zeta.
  destruct (str_contains (Reason br) "removed"); [cbn; now left|].
  destruct (str_contains (Reason br) "required"); [cbn; now right; left|].
  destruct (str_contains (Reason br) "parameter"); cbn; [discriminate|now right; right].
Qed.

Lemma op_description_reason d :
  op_description d ->
  (str_contains d "removed" || str_contains d "required"
   || negb (str_contains d "parameter")) = true.
Proof.
  intros H. destruct H as [| |f|code|name|name].
  - reflexivity.
  - reflexivity.
  - destruct (str_contains _ "removed"); reflexivity.
  - rewrite (str_contains_app_r "Response code " (code ++ " removed")); [reflexivity|].
    apply str_contains_app_r. reflexivity.
  - rewrite (str_contains_app_r "Parameter '" (name ++ "' removed")); [reflexivity|].
    apply str_contains_app_r. reflexivity.
  - destruct (str_contains _ "removed"); reflexivity.
Qed.

(** X14: every step of the migration guide built from a diff [Compare]
    returns uses the removed-endpoint, required-field or generic template;
    the "Update parameters for:" template is never produced, since every
    parameter reason [Compare] writes also contains "removed" or
    "required". *)
Theorem Compare_migration_titles oldSpec newSpec d :
  Compare oldSpec newSpec = Returned d None ->
  forall step, In step (Steps (MigrationGenerate d)) ->
  Title step = "Handle removed endpoint: " ++ StepMethod step ++ " " ++ Endpoint step \/
  Title step = "Add required field for: " ++ StepMethod step ++ " " ++ Endpoint step \/
  Title step = "Update: " ++ StepMethod step ++ " " ++ Endpoint step.
Proof.
  intros H step Hs. apply Compare_returned in H. subst d.
  unfold MigrationGenerate in Hs. rewrite migration_fold in Hs.
  cbn [Steps Breaking app] in Hs.
  apply in_map_iff in Hs as [br [<- Hbr]].
  apply createMigrationStep_title.
  apply in_app_iff in Hbr as [Hbr|Hbr]; apply in_map_iff in Hbr as [x [<- Hx]].
  - destruct x as [c b]. apply removed_pairs_shape in Hx.
    destruct Hx as (_ & _ & _ & _ & Hr & _). cbn [snd]. rewrite Hr. reflexivity.
  - apply compare_modified_shape in Hx as (_ & _ & Hx).
    apply op_description_reason. exact Hx.
Qed.

Lemma Compare_migration_titles_witness :
  exists d, Compare seed_old seed_new = Returned d None /\
    Forall (fun step =>
      Title step = "Handle removed endpoint: " ++ StepMethod step ++ " " ++ Endpoint step \/
      Title step = "Add required field for: " ++ StepMethod step ++ " " ++ Endpoint step \/
      Title step = "Update: " ++ StepMethod step ++ " " ++ Endpoint step)
      (Steps (MigrationGenerate d)).
Proof.
  eexists. split; [vm_compute; reflexivity|].
  apply Forall_forall.
  exact (Compare_migration_titles seed_old seed_new _ ltac:(vm_compute; reflexivity)).
Defined.

(** ** Breaking change types *)

(** X15: [IsBreaking] holds exactly for the seven [BreakingChangeType]
    constants; any other string, a missing key of [breakingTypes], reads as
    not breaking. *)
Theorem BreakingRules_IsBreaking_iff t :
  BreakingRules.IsBreaking t = true <->
  In t [BreakingRules.BreakingEndpointRemoved; BreakingRules.BreakingParameterRemoved;
        BreakingRules.BreakingRequiredAdded; BreakingRules.BreakingResponseRemoved;
        BreakingRules.BreakingTypeChanged; BreakingRules.BreakingRequestBodyRemoved;
        BreakingRules.BreakingSecurityAdded].
Proof.
  split.
  - unfold BreakingRules.IsBreaking. cbv zeta. cbn [lookup].
    repeat match goal with
    | |- context [String.eqb t ?k] =>
        destruct (String.eqb_spec t k) as [->|_]; [intros _; cbn; tauto|]
    end.
    discriminate.
  - intros H. repeat (destruct H as [<-|H]; [reflexivity|]). destruct H.
Qed.

(** ** Panics of [getMigrationGuide] *)

(** X16: [getMigrationGuide] panics (a slice beyond the end of the
    description) exactly when the description is neither of the two
    request-body texts and is shorter than 18 bytes, or shorter than 21
    bytes without starting with "New required field", "Response code" or
    "Parameter"; a description of 21 bytes or more never panics. *)
Theorem getMigrationGuide_panics c :
  getMigrationGuide c = None <->
  Description c <> "Request body removed" /\
  Description c <> "Required request body added" /\
  (String.length (Description c) < 18 \/
   (String.length (Description c) < 21 /\
    substring 0 18 (Description c) <> "New required field" /\
    substring 0 13 (Description c) <> "Response code" /\
    substring 0 9 (Description c) <> "Parameter")).
Proof.
  unfold getMigrationGuide. cbv zeta. unfold slice, contains. cbn [existsb].
  generalize (Description c) as d. intros d.
  destruct (String.eqb_spec d "Request body removed") as [->|H1].
  { split; [discriminate|]. intros (H & _). congruence. }
  destruct (String.eqb_spec d "Required request body added") as [->|H2].
  { split; [discriminate|]. intros (_ & H & _). congruence. }
  destruct (Nat.leb_spec 18 (String.length d)) as [L18|L18].
  2: { split; [intros _; auto|reflexivity]. }
  destruct (String.eqb_spec "New required field" (substring 0 18 d)) as [E18|E18];
    cbn [orb].
  { split; [discriminate|]. intros (_ & _ & [Hl|(_ & Hs & _)]); [lia|congruence]. }
  rewrite (proj2 (Nat.leb_le 13 _)) by lia.
  destruct (String.eqb_spec "Response code" (substring 0 13 d)) as [E13|E13]; cbn [orb].
  { split; [discriminate|]. intros (_ & _ & [Hl|(_ & _ & Hs & _)]); [lia|congruence]. }
  rewrite (proj2 (Nat.leb_le 9 _)) by lia.
  destruct (String.eqb_spec "Parameter" (substring 0 9 d)) as [E9|E9]; cbn [orb].
  { split; [discriminate|]. intros (_ & _ & [Hl|(_ & _ & _ & Hs)]); [lia|congruence]. }
  destruct (Nat.leb_spec 21 (String.length d)) as [L21|L21].
  - split; [destruct (String.eqb _ _); discriminate|].
    intros (_ & _ & [Hl|(Hl & _)]); lia.
  - split; [intros _|reflexivity].
    split; [exact H1|split; [exact H2|right]].
    split; [exact L21|split; [congruence|split; congruence]].
Qed.

(** ** New required parameters *)

Lemma in_keys_assoc_insert {A : Type} k (v : A) m k' :
  In k' (map fst (assoc_insert k v m)) <-> k' = k \/ In k' (map fst m).
Proof.
  induction m as [|[k0 v0] t IH]; cbn [assoc_insert map fst In].
  - intuition congruence.
  - destruct (String.eqb_spec k k0) as [<-|Hne]; cbn [map fst In].
    + intuition congruence.
    + rewrite IH. intuition congruence.
Qed.

Lemma assoc_insert_nodup {A : Type} k (v : A) m :
  NoDup (map fst m) -> NoDup (map fst (assoc_insert k v m)).
Proof.
  induction m as [|[k0 v0] t IH]; cbn [assoc_insert map fst]; intros H.
  - constructor; [intros []|constructor].
  - inversion_clear H as [|? ? Hn Ht].
    destruct (String.eqb_spec k k0) as [<-|Hne]; cbn [map fst].
    + constructor; assumption.
    + constructor; [|exact (IH Ht)].
      rewrite in_keys_assoc_insert. intros [E|E]; [congruence|contradiction].
Qed.

Lemma getParameters_nodup op : NoDup (map fst (getParameters op)).
Proof.
  rewrite getParameters_fold. destruct (as_arr (lookup "parameters" op)) as [params|];
    [|constructor].
  assert (H : forall acc, NoDup (map fst acc) ->
              NoDup (map fst (fold_left param_step params acc))).
  { induction params as [|x t IH]; intros acc Hacc; cbn [fold_left]; [exact Hacc|].
    apply IH. destruct x as [| | | | |param]; cbn [param_step]; try exact Hacc.
    destruct (as_str (lookup "name" param)); [apply assoc_insert_nodup|]; exact Hacc. }
  apply H. constructor.
Qed.

Lemma lookup_not_key {A : Type} k (l : list (string * A)) :
  ~ In k (map fst l) -> lookup k l = None.
Proof.
  induction l as [|[k0 v0] t IH]; cbn [lookup map fst In]; intros H; [reflexivity|].
  destruct (String.eqb_spec k k0) as [<-|Hne]; [exfalso; apply H; now left|].
  apply IH. intros Hin. apply H. now right.
Qed.

Lemma desc_modified p m s : Description (modified p m s) = s.
Proof. reflexivity. Qed.

Lemma new_param_count p m (oldParams l : list (string * obj)) name :
  NoDup (map fst l) ->
  length (filter (fun c => String.eqb (Description c) ("New required parameter: " ++ name))
    (flat_map (fun '(k, param) =>
                 match lookup k oldParams with
                 | Some _ => []
                 | None =>
                     if isParamRequired param
                     then [modified p m ("New required parameter: " ++ k)]
                     else []
                 end) l)) =
  match lookup name l, lookup name oldParams with
  | Some param, None => if isParamRequired param then 1 else 0
  | _, _ => 0
  end.
Proof.
  induction l as [|[k v] t IH]; intros Hnd; [reflexivity|].
  inversion_clear Hnd as [|? ? Hk Ht]. cbn [flat_map lookup].
  rewrite filter_app, length_app, IH by exact Ht.
  destruct (String.eqb_spec name k) as [<-|Hne].
  - rewrite (lookup_not_key name t Hk).
    destruct (lookup name oldParams); cbn [filter length]; [reflexivity|].
    destruct (isParamRequired v); cbn [filter length]; [|reflexivity].
    rewrite desc_modified, String.eqb_refl. reflexivity.
  - destruct (lookup k oldParams); cbn [filter length]; [reflexivity|].
    destruct (isParamRequired v); cbn [filter length]; [|reflexivity].
    rewrite desc_modified, eqb_app_prefix, (proj2 (String.eqb_neq k name)) by congruence.
    reflexivity.
Qed.

(** X17: the per-operation comparison reports ["New required parameter: "
    ++ name] once when the new operation has a parameter [name] that is
    required ([required: true]) and the old operation has none of that
    name, and never otherwise: an optional new parameter, or one the old
    operation already had, is not reported. *)
Theorem compareOperations_new_required_param p m oldOp newOp name :
  length (filter (fun c => String.eqb (Description c) ("New required parameter: " ++ name))
            (compareOperations p m oldOp newOp)) =
  match lookup name (getParameters newOp), lookup name (getParameters oldOp) with
  | Some param, None => if isParamRequired param then 1 else 0
  | _, _ => 0
  end.
Proof.
  unfold compareOperations. rewrite !filter_app, !length_app.
  rewrite (filter_all_false _ (bodyChanges _ _ _ _)).
  2: { intros c Hc. unfold bodyChanges in Hc.
       destruct (getRequestBody oldOp), (getRequestBody newOp) as [nb|]; try contradiction.
       - destruct Hc as [<-|[]]. reflexivity.
       - destruct (as_bool (lookup "required" nb)) as [[|]|]; try contradiction.
         destruct Hc as [<-|[]]. reflexivity. }
  rewrite (filter_all_false _ (requiredFieldChanges _ _ _ _)).
  2: { intros c Hc. apply field_descriptions in Hc as [f ->]. reflexivity. }
  rewrite (filter_all_false _ (responseChanges _ _ _ _)).
  2: { intros c Hc. unfold responseChanges in Hc. cbv zeta in Hc.
       apply in_flat_map in Hc as [x [_ Hc]].
       destruct (contains _ x); cbn in Hc; [contradiction|].
       destruct Hc as [<-|[]]. reflexivity. }
  rewrite (filter_all_false _ (removedParamChanges _ _ _ _)).
  2: { intros c Hc. unfold removedParamChanges in Hc.
       apply in_flat_map in Hc as [[n v] [_ Hc]].
       destruct (lookup n _); cbn in Hc; [contradiction|].
       destruct Hc as [<-|[]]. reflexivity. }
  cbn [length]. rewrite !Nat.add_0_l.
  unfold newParamChanges. cbv zeta.
  apply new_param_count. apply getParameters_nodup.
Qed.

Lemma removed_param_count p m (newParams l : list (string * obj)) name :
  NoDup (map fst l) ->
  length (filter (fun c => String.eqb (Description c) ("Parameter '" ++ name ++ "' removed"))
    (flat_map (fun '(k, _) =>
                 match lookup k newParams with
                 | Some _ => []
                 | None => [modified p m ("Parameter '" ++ k ++ "' removed")]
                 end) l)) =
  match lookup name l, lookup name newParams with
  | Some _, None => 1
  | _, _ => 0
  end.
Proof.
  induction l as [|[k v] t IH]; intros Hnd; [reflexivity|].
  inversion_clear Hnd as [|? ? Hk Ht]. cbn [flat_map lookup].
  rewrite filter_app, length_app, IH by exact Ht.
  destruct (String.eqb_spec name k) as [<-|Hne].
  - rewrite (lookup_not_key name t Hk).
    destruct (lookup name newParams); cbn [filter length]; [reflexivity|].
    rewrite desc_modified, String.eqb_refl. reflexivity.
  - destruct (lookup k newParams); cbn [filter length]; [reflexivity|].
    rewrite desc_modified, eqb_app_prefix, eqb_app_suffix.
    rewrite (proj2 (String.eqb_neq k name)) by congruence.
    reflexivity.
Qed.

(** X18: the per-operation comparison reports ["Parameter '" ++ name ++
    "' removed"] once when the old operation has a parameter [name] and the
    new one has none of that name, and never otherwise. *)
Theorem compareOperations_removed_param p m oldOp newOp name :
  length (filter (fun c => String.eqb (Description c) ("Parameter '" ++ name ++ "' removed"))
            (compareOperations p m oldOp newOp)) =
  match lookup name (getParameters oldOp), lookup name (getParameters newOp) with
  | Some _, None => 1
  | _, _ => 0
  end.
Proof.
  unfold compareOperations. rewrite !filter_app, !length_app.
  rewrite (filter_all_false _ (bodyChanges _ _ _ _)).
  2: { intros c Hc. unfold bodyChanges in Hc.
       destruct (getRequestBody oldOp), (getRequestBody newOp) as [nb|]; try contradiction.
       - destruct Hc as [<-|[]]. reflexivity.
       - destruct (as_bool (lookup "required" nb)) as [[|]|]; try contradiction.
         destruct Hc as [<-|[]]. reflexivity. }
  rewrite (filter_all_false _ (requiredFieldChanges _ _ _ _)).
  2: { intros c Hc. apply field_descriptions in Hc as [f ->]. reflexivity. }
  rewrite (filter_all_false _ (responseChanges _ _ _ _)).
  2: { intros c Hc. unfold responseChanges in Hc. cbv zeta in Hc.
       apply in_flat_map in Hc as [x [_ Hc]].
       destruct (contains _ x); cbn in Hc; [contradiction|].
       destruct Hc as [<-|[]]. reflexivity. }
  rewrite (filter_all_false _ (newParamChanges _ _ _ _)).
  2: { intros c Hc. unfold newParamChanges in Hc.
       apply in_flat_map in Hc as [[n v] [_ Hc]].
       destruct (lookup n _); cbn in Hc; [contradiction|].
       destruct (isParamRequired v); cbn in Hc; [|contradiction].
       destruct Hc as [<-|[]]. reflexivity. }
  cbn [length]. rewrite !Nat.add_0_l, Nat.add_0_r.
  unfold removedParamChanges. cbv zeta.
  apply removed_param_count. apply getParameters_nodup.
Qed.

(** ** Added endpoints *)

Lemma modified_present oldSpec newSpec c :
  In c (compare_modified oldSpec newSpec) ->
  method_absent (getPaths oldSpec) (Path c) (Method c) = false.
Proof.
  unfold compare_modified, mod_changes, compare_ops. intros H.
  apply in_flat_map in H as [[[[p m] o] n] [Hq H]]. cbn [quad_changes] in H.
  apply compareOperations_shape in H as (_ & -> & -> & _).
  apply mod_ops_in in Hq as (ms & nms & Hp & Hm & _ & _).
  exact (method_present _ _ _ _ _ (getPaths_nodup oldSpec) Hp Hm).
Qed.

(** X19: an endpoint (path and method) of the new paths that is absent
    from the old paths has exactly one [Added] change; every change at that
    endpoint is [Added] and not breaking, and no [BreakingChange] names it. *)
Theorem Compare_reports_addition (oldSpec newSpec : obj) (path method : string) :
  method_absent (getPaths oldSpec) path method = true ->
  method_absent (getPaths newSpec) path method = false ->
  exists d, Compare oldSpec newSpec = Returned d None /\
    length (filter (added_at path method) (Changes d)) = 1 /\
    (forall c, In c (Changes d) -> Path c = path -> Method c = method ->
       is_added c = true /\ IsBreaking c = false) /\
    (forall b, In b (Breaking d) -> BPath b = path -> BMethod b = method -> False).
Proof.
  intros Hold Hnew.
  rewrite Compare_spec. cbv zeta. eexists; split; [reflexivity|].
  cbn [Changes Breaking].
  split; [|split].
  - rewrite filter_app, length_app.
    rewrite (filter_all_false _ (map fst (compare_removed _ _) ++ compare_modified _ _)%list).
    2: { intros c Hc. apply in_app_iff in Hc as [Hc|Hc].
         - apply in_map_iff in Hc as [[c' b] [<- Hc]].
           apply removed_pairs_shape in Hc as (Ht & _). cbn [fst].
           unfold added_at, is_added. now rewrite Ht.
         - apply compare_modified_shape in Hc as (Ht & _).
           unfold added_at, is_added. now rewrite Ht. }
    cbn [length]. rewrite Nat.add_0_r.
    rewrite (filter_ext_in _ (fun c => String.eqb (Path c) path && String.eqb (Method c) method)).
    2: { intros c Hc. apply added_list_shape in Hc as (Ht & _).
         unfold added_at, is_added. now rewrite Ht. }
    transitivity (length (filter (fun pm => String.eqb (fst pm) path && String.eqb (snd pm) method)
                            (map (fun c => (Path c, Method c)) (compare_added oldSpec newSpec)))).
    { rewrite length_filter_map. reflexivity. }
    unfold compare_added.
    rewrite added_removed_swap, map_map, length_filter_map.
    apply (removed_pairs_unique _ _ path method).
    + apply getPaths_nodup.
    + intros p ms. apply getPaths_methods_nodup.
    + exact Hnew.
    + exact Hold.
    + intros p m. reflexivity.
  - intros c Hc Hp Hm. rewrite !in_app_iff in Hc. destruct Hc as [Hc|[Hc|Hc]].
    + apply added_list_shape in Hc as (Ht & Hb). unfold is_added. now rewrite Ht.
    + apply in_map_iff in Hc as [[c' b] [<- Hc]].
      apply removed_pairs_shape in Hc as (_ & _ & _ & _ & _ & _ & Habs & _).
      cbn [fst] in Hp, Hm. rewrite Hp, Hm in Habs. congruence.
    + apply modified_present in Hc. rewrite Hp, Hm in Hc. congruence.
  - intros b Hb Hp Hm. apply in_app_iff in Hb as [Hb|Hb].
    + apply in_map_iff in Hb as [[c b'] [Hs Hb]]. cbn [snd] in Hs. subst b'.
      apply removed_pairs_shape in Hb as (_ & _ & Hbp & Hbm & _ & _ & Habs & _).
      rewrite <- Hbp, <- Hbm, Hp, Hm in Habs. congruence.
    + apply in_map_iff in Hb as [c [<- Hc]]. apply filter_In in Hc as [Hc _].
      apply modified_present in Hc. cbn [breaking_of BPath BMethod] in Hp, Hm.
      rewrite Hp, Hm in Hc. congruence.
Qed.

Lemma Compare_reports_addition_witness :
  method_absent (getPaths seed_old) "/products" "get" = true /\
  method_absent (getPaths seed_new) "/products" "get" = false /\
  exists d, Compare seed_old seed_new = Returned d None /\
    length (filter (added_at "/products" "get") (Changes d)) = 1 /\
    (forall c, In c (Changes d) -> Path c = "/products" -> Method c = "get" ->
       is_added c = true /\ IsBreaking c = false) /\
    (forall b, In b (Breaking d) -> BPath b = "/products" -> BMethod b = "get" -> False).
Proof.
  split; [vm_compute; reflexivity|]. split; [vm_compute; reflexivity|].
  apply (Compare_reports_addition seed_old seed_new "/products" "get");
    vm_compute; reflexivity.
Defined.
